(** * MatchupTable: the matchup accumulator, the winrate derivation, the
    CSV persistence and the ingestion driver of [MatchupTable.py], and the
    labels of [PlotMatchupTable.py], embedded and verified.

    Modelling conventions.
    - A [float64] cell is a value of a type [F] with the operations the
      source applies to it ([FloatArith]); the instance [binary64] is IEEE
      double arithmetic (Rocq's primitive floats), the instance [exact] is
      exact rational arithmetic.  Whatever holds for every [F] holds for the
      doubles the program computes with.
    - [str(x)] and [float(s)] on a cell are the two operations of
      [FloatText]; the CSV file is the list of records [csv.writer] is given
      and [csv.reader] hands back, each field a string.
    - A Python [dict] is an insertion-ordered association list ([dict_set],
      [dict_get]): [save_to_csv] writes the index in iteration order and
      [load_from_csv] lets a later row overwrite an earlier one.
    - A numpy array is its list of rows together with its number of
      columns, or the one-dimensional empty array; indexing out of range
      raises, and a negative index counts from the end.
    - A method is a function in the state-and-exception monad [M]: it takes
      the instance, and gives back a result or a raised exception together
      with the instance as the call left it.  The three tables are distinct
      arrays ([np.zeros] and [np.array] allocate), so updating one in place
      is replacing that field.
    - The requests to the card API are not part of the model: a method that
      makes one is given the status code and the decoded response (the card
      names for [__init_tables], the player tags of the ranking, the records
      of a battle log), taken to be JSON with the keys the source reads.
      What the program prints is left out. *)

From Stdlib Require Import ZArith QArith PrimFloat DecimalString DecimalZ.
From Stdlib Require Import Ascii String Lia Lqa.
From stdpp Require Import base tactics option list strings sorting numbers.

Close Scope Q_scope.
Local Open Scope nat_scope.

(** ** Python values used by the source *)

Inductive exn :=
  | IndexError | ValueError | OverflowError | FileNotFoundError
  | RuntimeError | AttributeError | TypeError | RequestError.

(** [class Winner(str, Enum)] *)
Inductive Winner := TEAM | OPPONENT | DRAW.

#[global] Instance Winner_eq_dec : EqDecision Winner.
Proof. solve_decision. Defined.

(** [class Deck(TypedDict)] *)
Record Deck := { cards : list string; supportCards : list string }.

(** [class GameInfo(TypedDict)] *)
Record GameInfo := {
  winner : Winner;
  team_crowns : Z;
  opponent_crowns : Z;
  team_deck : Deck;
  opponent_deck : Deck }.

(** A record of the battle log, as [process_player_recent_ranked_games]
    reads it: [team] and [opponent] are lists of sides, [cards] and
    [supportCards] hold the ['name'] of each entry. *)
Module Battlelog.
Record Side := {
  crowns : Z;
  cards : list string;
  supportCards : list string }.

Record Battle := {
  type : string;
  team : list Side;
  opponent : list Side }.
End Battlelog.

(** *** float64 cells *)

Class FloatArith (F : Type) := {
  f_zero : F;                (* 0.0, the fill value of np.zeros *)
  f_one : F;                 (* the literal 1.0 *)
  f_two : F;                 (* the int 2 converted for [2 * smoothing] *)
  f_add : F → F → F;
  f_mul : F → F → F;
  f_div : F → F → F }.

#[global] Instance binary64 : FloatArith float := {|
  f_zero := 0%float; f_one := 1%float; f_two := 2%float;
  f_add := PrimFloat.add; f_mul := PrimFloat.mul; f_div := PrimFloat.div |}.

#[global] Instance exact : FloatArith Q := {|
  f_zero := 0%Q; f_one := 1%Q; f_two := 2%Q;
  f_add := Qplus; f_mul := Qmult; f_div := Qdiv |}.

Class FloatText (F : Type) := {
  float_str : F → string;          (* the text csv.writer writes for a float *)
  py_float : string → option F }.  (* float(s); None is ValueError *)

(** *** int, str *)

(** [str(z)] for a Python int. *)
Definition py_str (z : Z) : string := NilZero.string_of_int (Z.to_int z).

(** [int(s)]: an optional minus sign and decimal digits; [None] is
    ValueError.  (Python also takes a plus sign, blanks around the number
    and underscores between digits; no text [py_str] produces has them.) *)
Definition py_int (s : string) : option Z := Z.of_int <$> NilZero.int_of_string s.

(** [s.lower()], on ASCII letters. *)
Definition lower_ascii (c : ascii) : ascii :=
  let n := nat_of_ascii c in
  if (65 <=? n) && (n <=? 90) then ascii_of_nat (n + 32) else c.

Fixpoint lower (s : string) : string :=
  match s with
  | EmptyString => EmptyString
  | String c s' => String (lower_ascii c) (lower s')
  end.

(** *** dict *)

Section pydict.
Context {K V : Type} `{EqDecision K}.

(** [d[k] = v]: an existing key keeps its place, a new key goes last. *)
Fixpoint dict_set (d : list (K * V)) (k : K) (v : V) : list (K * V) :=
  match d with
  | [] => [(k, v)]
  | (k', v') :: d' =>
      if decide (k' = k) then (k', v) :: d' else (k', v') :: dict_set d' k v
  end.

(** [d[k]] guarded by [k in d]. *)
Fixpoint dict_get (d : list (K * V)) (k : K) : option V :=
  match d with
  | [] => None
  | (k', v') :: d' => if decide (k' = k) then Some v' else dict_get d' k
  end.
End pydict.

(** *** numpy arrays of float64 *)

(** The arrays the program builds are two-dimensional, or the
    one-dimensional empty array [np.array([])] of shape [(0,)]. *)
Inductive ndarray (F : Type) :=
  | Nd1_empty
  | Nd2 (ncols : nat) (rows : list (list F)).
Arguments Nd1_empty {F}.
Arguments Nd2 {F} ncols rows.

Definition shape {F} (a : ndarray F) : list nat :=
  match a with
  | Nd1_empty => [0]
  | Nd2 ncols rows => [length rows; ncols]
  end.

(** Every row of a two-dimensional array has [ncols] cells. *)
Definition nd_wf {F} (a : ndarray F) : Prop :=
  match a with
  | Nd1_empty => True
  | Nd2 ncols rows => Forall (λ r, length r = ncols) rows
  end.

(** [a[i, j]] for in-range [i], [j]. *)
Definition cell {F} (a : ndarray F) (i j : nat) : option F :=
  match a with
  | Nd1_empty => None
  | Nd2 _ rows => rows !! i ≫= (.!! j)
  end.

(** [np.zeros((n, m))] *)
Definition np_zeros {F} `{FloatArith F} (n m : nat) : ndarray F :=
  Nd2 m (replicate n (replicate m f_zero)).

(** [np.array(rows, dtype=np.float64)] on a list of lists: [None] is the
    ValueError numpy raises for rows of different lengths. *)
Definition np_array {F} (rows : list (list F)) : option (ndarray F) :=
  match rows with
  | [] => Some Nd1_empty
  | r :: rs =>
      if forallb (λ r', length r' =? length r) rs
      then Some (Nd2 (length r) rows) else None
  end.

(** [a.tolist()] row by row, as [save_to_csv] walks [range(a.shape[0])]. *)
Definition nd_rows {F} (a : ndarray F) : list (list F) :=
  match a with
  | Nd1_empty => []
  | Nd2 _ rows => rows
  end.

Definition in_int32 (z : Z) : bool := ((-2147483648 <=? z) && (z <=? 2147483647))%Z.

(** [np.array(idxs, dtype=np.int32)]: [None] is the OverflowError for an
    integer that does not fit. *)
Definition np_array_int32 (idxs : list Z) : option (list Z) :=
  if forallb in_int32 idxs then Some idxs else None.

(** [np.unique]: the sorted distinct values. *)
Definition np_unique (a : list Z) : list Z := merge_sort Z.le (remove_dups a).

(** An index into an axis of length [n]: negative indices count from the
    end, [None] is IndexError. *)
Definition norm_index (n : nat) (i : Z) : option nat :=
  if decide (0 ≤ i < Z.of_nat n)%Z then Some (Z.to_nat i)
  else if decide (- Z.of_nat n ≤ i < 0)%Z then Some (Z.to_nat (i + Z.of_nat n))
  else None.

(** [a[np.ix_(ri, ci)] += 1.0]: every cell of the selected rows and columns
    is read once, increased and written back. *)
Definition ix_iadd_one {F} `{FloatArith F}
    (a : ndarray F) (ri ci : list Z) : option (ndarray F) :=
  match a with
  | Nd1_empty => None
  | Nd2 ncols rows =>
      ri' ← mapM (norm_index (length rows)) ri;
      ci' ← mapM (norm_index ncols) ci;
      Some (Nd2 ncols
        (imap (λ i row,
           imap (λ j x,
             if bool_decide (i ∈ ri' ∧ j ∈ ci') then f_add x f_one else x)
             row) rows))
  end.

(** [a[i, j] = v] *)
Definition nd_set {F} (a : ndarray F) (i j : nat) (v : F) : option (ndarray F) :=
  match a with
  | Nd1_empty => None
  | Nd2 ncols rows =>
      row ← rows !! i;
      if decide (j < length row) then Some (Nd2 ncols (<[i := <[j := v]> row]> rows))
      else None
  end.

(** ** The instance and its methods *)

Record MatchupTable (F : Type) := {
  wins_table : option (ndarray F);
  total_games_table : option (ndarray F);
  winrates_table : option (ndarray F);
  card_name_to_index : list (string * Z);
  index_to_card_name : list (Z * string);
  gamesProcessed : Z }.
Arguments wins_table {F}.
Arguments total_games_table {F}.
Arguments winrates_table {F}.
Arguments card_name_to_index {F}.
Arguments index_to_card_name {F}.
Arguments gamesProcessed {F}.

Section setters.
Context {F : Type}.
Implicit Type self : MatchupTable F.

Definition set_wins_table self v : MatchupTable F :=
  {| wins_table := v; total_games_table := total_games_table self;
     winrates_table := winrates_table self;
     card_name_to_index := card_name_to_index self;
     index_to_card_name := index_to_card_name self;
     gamesProcessed := gamesProcessed self |}.
Definition set_total_games_table self v : MatchupTable F :=
  {| wins_table := wins_table self; total_games_table := v;
     winrates_table := winrates_table self;
     card_name_to_index := card_name_to_index self;
     index_to_card_name := index_to_card_name self;
     gamesProcessed := gamesProcessed self |}.
Definition set_winrates_table self v : MatchupTable F :=
  {| wins_table := wins_table self; total_games_table := total_games_table self;
     winrates_table := v;
     card_name_to_index := card_name_to_index self;
     index_to_card_name := index_to_card_name self;
     gamesProcessed := gamesProcessed self |}.
Definition set_card_name_to_index self v : MatchupTable F :=
  {| wins_table := wins_table self; total_games_table := total_games_table self;
     winrates_table := winrates_table self;
     card_name_to_index := v;
     index_to_card_name := index_to_card_name self;
     gamesProcessed := gamesProcessed self |}.
Definition set_index_to_card_name self v : MatchupTable F :=
  {| wins_table := wins_table self; total_games_table := total_games_table self;
     winrates_table := winrates_table self;
     card_name_to_index := card_name_to_index self;
     index_to_card_name := v;
     gamesProcessed := gamesProcessed self |}.
Definition set_gamesProcessed self v : MatchupTable F :=
  {| wins_table := wins_table self; total_games_table := total_games_table self;
     winrates_table := winrates_table self;
     card_name_to_index := card_name_to_index self;
     index_to_card_name := index_to_card_name self;
     gamesProcessed := v |}.
End setters.

(** *** The method monad *)

Inductive result (A : Type) := Ok (a : A) | Raise (e : exn).
Arguments Ok {A} a.
Arguments Raise {A} e.

Definition M (F A : Type) : Type := MatchupTable F → result A * MatchupTable F.

#[global] Instance M_ret {F} : MRet (M F) := λ A a self, (Ok a, self).
#[global] Instance M_bind {F} : MBind (M F) := λ A B f m self,
  match m self with
  | (Ok a, self') => f a self'
  | (Raise e, self') => (Raise e, self')
  end.

Definition raise {F A} (e : exn) : M F A := λ self, (Raise e, self).
Definition get {F} : M F (MatchupTable F) := λ self, (Ok self, self).
Definition modify {F} (f : MatchupTable F → MatchupTable F) : M F unit :=
  λ self, (Ok tt, f self).

(** An optional value, or the exception its absence stands for. *)
Definition or_raise {F A} (e : exn) (o : option A) : M F A :=
  match o with Some a => mret a | None => raise e end.

(** [for x in l: body(x)] *)
Fixpoint for_each {F A} (l : list A) (body : A → M F unit) : M F unit :=
  match l with
  | [] => mret tt
  | x :: l' => body x ;; for_each l' body
  end.

(** [try: m  except Exception as e: handler(e)] *)
Definition try_except {F A} (m : M F A) (handler : exn → M F A) : M F A :=
  λ self,
    match m self with
    | (Ok a, self') => (Ok a, self')
    | (Raise e, self') => handler e self'
    end.

Section methods.
Context {F : Type} `{FloatArith F} `{FloatText F}.

(** The fields [__init__] assigns before it calls [__init_tables]. *)
Definition new_instance : MatchupTable F :=
  {| wins_table := None; total_games_table := None; winrates_table := None;
     card_name_to_index := []; index_to_card_name := [];
     gamesProcessed := 0 |}.

(** [__init_tables], given what the catalog request answers: the status
    code and the names in 'items' and in 'supportItems'. *)
Definition __init_tables (status_code : Z) (items supportItems : list string)
    : M F unit :=
  if decide (status_code ≠ 200%Z) then raise RequestError else
  let all_cards := items ++ supportItems in
  let n := length all_cards in
  for_each (imap (λ index card, (index, card)) all_cards) (λ '(index, card),
    let name := lower card in
    modify (λ self, set_card_name_to_index self
              (dict_set (card_name_to_index self) name (Z.of_nat index))) ;;
    modify (λ self, set_index_to_card_name self
              (dict_set (index_to_card_name self) (Z.of_nat index) name))) ;;
  modify (λ self, set_wins_table self (Some (np_zeros n n))) ;;
  modify (λ self, set_total_games_table self (Some (np_zeros n n))) ;;
  modify (λ self, set_winrates_table self (Some (np_zeros n n))).

(** [MatchupTable(api_key, base_url)] *)
Definition __init__ (status_code : Z) (items supportItems : list string)
    : result unit * MatchupTable F :=
  __init_tables status_code items supportItems new_instance.

Definition _indices_for_deck (deck : Deck) : M F (list Z) :=
  self ← get;
  let names := cards deck ++ supportCards deck in
  let idxs := omap (dict_get (card_name_to_index self)) names in
  a ← or_raise OverflowError (np_array_int32 idxs);
  mret (np_unique a).

(** [self.<table>[np.ix_(ri, ci)] += 1.0] *)
Definition wins_iadd (ri ci : list Z) : M F unit :=
  self ← get;
  a ← or_raise TypeError (wins_table self);
  a' ← or_raise IndexError (ix_iadd_one a ri ci);
  modify (λ self, set_wins_table self (Some a')).

Definition total_iadd (ri ci : list Z) : M F unit :=
  self ← get;
  a ← or_raise TypeError (total_games_table self);
  a' ← or_raise IndexError (ix_iadd_one a ri ci);
  modify (λ self, set_total_games_table self (Some a')).

Definition process_game (game_info : GameInfo) : M F unit :=
  self ← get;
  if bool_decide (wins_table self = None ∨ total_games_table self = None)
  then mret tt else
  if decide (winner game_info = DRAW) then mret tt else
  team_idx ← _indices_for_deck (team_deck game_info);
  opp_idx ← _indices_for_deck (opponent_deck game_info);
  if (length team_idx =? 0) || (length opp_idx =? 0) then mret tt else
  match winner game_info with
  | TEAM => wins_iadd team_idx opp_idx
  | OPPONENT => wins_iadd opp_idx team_idx
  | DRAW => mret tt
  end ;;
  total_iadd team_idx opp_idx ;;
  total_iadd opp_idx team_idx ;;
  modify (λ self, set_gamesProcessed self (gamesProcessed self + 1)%Z).

(** The calls [process_player_recent_ranked_games] makes, one per ranked
    game of the battle log, in order. *)
Definition process_games (games : list GameInfo) : M F unit :=
  for_each games process_game.

Definition winrate_function (wins total_games smoothing : F) : F :=
  f_div (f_add wins smoothing) (f_add total_games (f_mul f_two smoothing)).

(** [self.<table>[i, j]] *)
Definition table_cell (table : MatchupTable F → option (ndarray F))
    (i j : nat) : M F F :=
  self ← get;
  a ← or_raise TypeError (table self);
  or_raise IndexError (cell a i j).

Definition calculate_winrates : M F unit :=
  self ← get;
  wins_arr ← or_raise AttributeError (wins_table self);
  rows ← or_raise IndexError (shape wins_arr !! 0);
  cols ← or_raise IndexError (shape wins_arr !! 1);
  for_each (seq 0 rows) (λ i,
    for_each (seq 0 cols) (λ j,
      wins ← table_cell wins_table i j;
      total_games ← table_cell total_games_table i j;
      self ← get;
      a ← or_raise TypeError (winrates_table self);
      a' ← or_raise IndexError
             (nd_set a i j (winrate_function wins total_games f_one));
      modify (λ self, set_winrates_table self (Some a')))).

(** The records written for one table: [[i] + table[i].tolist()]. *)
Definition table_records (a : ndarray F) : list (list string) :=
  imap (λ i row, py_str (Z.of_nat i) :: (float_str <$> row)) (nd_rows a).

(** [save_to_csv]; the result is the content of the file written (what a
    call that raises leaves in the file is not modelled). *)
Definition save_to_csv : M F (list (list string)) :=
  self ← get;
  if bool_decide (wins_table self = None ∨ total_games_table self = None)
  then raise RuntimeError else
  wins_arr ← or_raise TypeError (wins_table self);
  total_arr ← or_raise TypeError (total_games_table self);
  winrates_arr ← or_raise AttributeError (winrates_table self);
  mret (((λ '(key, value), [key; py_str value]) <$> card_name_to_index self)
        ++ [[]] ++ table_records wins_arr
        ++ [[]] ++ table_records total_arr
        ++ [[]] ++ table_records winrates_arr).

(** The three row lists [load_from_csv] fills. *)
Record row_lists := {
  wins_rows : list (list F);
  total_games_rows : list (list F);
  winrates_rows : list (list F) }.

(** [[float(x) for x in row[1:]]] *)
Definition float_cells (row : list string) : M F (list F) :=
  or_raise ValueError (mapM py_float (drop 1 row)).

(** The body of [for row in csv_reader], from the row on. *)
Fixpoint read_rows (rows : list (list string)) (dividers_hit : nat)
    (acc : row_lists) : M F row_lists :=
  match rows with
  | [] => mret acc
  | row :: rest =>
      if length row =? 0 then read_rows rest (dividers_hit + 1) acc else
      (if dividers_hit =? 0 then
         name ← or_raise IndexError (row !! 0);
         field ← or_raise IndexError (row !! 1);
         index ← or_raise ValueError (py_int field);
         modify (λ self, set_card_name_to_index self
                   (dict_set (card_name_to_index self) name index)) ;;
         modify (λ self, set_index_to_card_name self
                   (dict_set (index_to_card_name self) index name))
       else mret tt) ;;
      acc1 ← (if dividers_hit =? 1 then
                r ← float_cells row;
                mret {| wins_rows := wins_rows acc ++ [r];
                        total_games_rows := total_games_rows acc;
                        winrates_rows := winrates_rows acc |}
              else mret acc);
      acc2 ← (if dividers_hit =? 2 then
                r ← float_cells row;
                mret {| wins_rows := wins_rows acc1;
                        total_games_rows := total_games_rows acc1 ++ [r];
                        winrates_rows := winrates_rows acc1 |}
              else mret acc1);
      acc3 ← (if dividers_hit =? 3 then
                r ← float_cells row;
                mret {| wins_rows := wins_rows acc2;
                        total_games_rows := total_games_rows acc2;
                        winrates_rows := winrates_rows acc2 ++ [r] |}
              else mret acc2);
      read_rows rest dividers_hit acc3
  end.

(** The last three assignments of [load_from_csv]: rebuild numpy tables. *)
Definition rebuild_tables (acc : row_lists) : M F unit :=
  a ← or_raise ValueError (np_array (wins_rows acc));
  modify (λ self, set_wins_table self (Some a)) ;;
  a ← or_raise ValueError (np_array (total_games_rows acc));
  modify (λ self, set_total_games_table self (Some a)) ;;
  a ← or_raise ValueError (np_array (winrates_rows acc));
  modify (λ self, set_winrates_table self (Some a)).

(** [load_from_csv]; [file] is the content of the file named, [None] when
    there is no such file. *)
Definition load_from_csv (file : option (list (list string))) : M F unit :=
  modify (λ self, set_card_name_to_index self []) ;;
  modify (λ self, set_index_to_card_name self []) ;;
  rows ← or_raise FileNotFoundError file;
  acc ← read_rows rows 0
          {| wins_rows := []; total_games_rows := []; winrates_rows := [] |};
  rebuild_tables acc.

(** [process_player_recent_ranked_games], given what the battle-log request
    answers: the status code and the list of battle records. *)
Definition process_player_recent_ranked_games (status_code : Z)
    (games_list : list Battlelog.Battle) : M F unit :=
  if decide (status_code ≠ 200%Z) then raise RequestError else
  for_each games_list (λ game,
    if decide (Battlelog.type game = "pathOfLegend"%string) then
      team ← or_raise IndexError (Battlelog.team game !! 0);
      opponent ← or_raise IndexError (Battlelog.opponent game !! 0);
      let team_crowns := Battlelog.crowns team in
      let opponent_crowns := Battlelog.crowns opponent in
      let winner :=
        if decide (team_crowns > opponent_crowns)%Z then TEAM
        else if decide (opponent_crowns > team_crowns)%Z then OPPONENT
        else DRAW in
      self ← get;
      let team_cards :=
        filter (λ name, is_Some (dict_get (card_name_to_index self) name))
          (lower <$> Battlelog.cards team) in
      support ← or_raise IndexError (Battlelog.supportCards team !! 0);
      let team_support := [lower support] in
      let team_deck := {| cards := team_cards; supportCards := team_support |} in
      let opponent_cards :=
        filter (λ name, is_Some (dict_get (card_name_to_index self) name))
          (lower <$> Battlelog.cards opponent) in
      support ← or_raise IndexError (Battlelog.supportCards opponent !! 0);
      let opponent_support := [lower support] in
      let opponent_deck :=
        {| cards := opponent_cards; supportCards := opponent_support |} in
      process_game {| winner := winner; team_crowns := team_crowns;
                      opponent_crowns := opponent_crowns;
                      team_deck := team_deck; opponent_deck := opponent_deck |}
    else mret tt).

(** [get_top_n_ranked_player_tags_by_season], given the status code and the
    tags in 'items' of the ranking response. *)
Definition get_top_n_ranked_player_tags_by_season (status_code : Z)
    (tags : list string) : M F (list string) :=
  if decide (status_code ≠ 200%Z) then raise RequestError else mret tags.

(** The loop of [count_top_n_ranked_player_games]: the result is the
    content of 'matchup_table.txt' when a player's games raised and the
    table was saved, [None] when every player was processed. *)
Fixpoint count_players (battlelog : string → Z * list Battlelog.Battle)
    (top_player_tags : list string) : M F (option (list (list string))) :=
  match top_player_tags with
  | [] => mret None
  | top_player_tag :: rest =>
      done ← try_except
                (process_player_recent_ranked_games (battlelog top_player_tag).1
                   (battlelog top_player_tag).2 ;;
                 mret true)
                (λ e, mret false);
      if (done : bool) then count_players battlelog rest
      else file ← save_to_csv; mret (Some file)
  end.

(** [count_top_n_ranked_player_games], given the answer to the ranking
    request and the answer to the battle-log request of every tag. *)
Definition count_top_n_ranked_player_games (ranking : Z * list string)
    (battlelog : string → Z * list Battlelog.Battle)
    : M F (option (list (list string))) :=
  top_player_tags ← get_top_n_ranked_player_tags_by_season ranking.1 ranking.2;
  count_players battlelog top_player_tags.

(** [main] of MatchupTable.py: the result holds the two files it may write,
    'matchup_table.txt' and the table of the season. *)
Definition main (status_code : Z) (items supportItems : list string)
    (ranking : Z * list string) (battlelog : string → Z * list Battlelog.Battle)
    : result (option (list (list string)) * list (list string)) * MatchupTable F :=
  (__init_tables status_code items supportItems ;;
   saved ← count_top_n_ranked_player_games ranking battlelog;
   calculate_winrates ;;
   file ← save_to_csv;
   mret (saved, file)) new_instance.

(** [make_labels] of PlotMatchupTable.py: [mapping.get(i, str(i))] for
    [i] in [range(n)]. *)
Definition make_labels (n : nat) (mapping : list (Z * string)) : list string :=
  (λ i, default (py_str (Z.of_nat i)) (dict_get mapping (Z.of_nat i)))
    <$> seq 0 n.

(** [main] of PlotMatchupTable.py from [mt.load_from_csv] on, up to the row
    and column labels it hands to the figure. *)
Definition load_labels (file : option (list (list string)))
    : M F (list string * list string) :=
  load_from_csv file ;;
  self ← get;
  winrates ← or_raise AttributeError (winrates_table self);
  dims ← match shape winrates with
         | [n_rows; n_cols] => mret (n_rows, n_cols)
         | _ => raise ValueError
         end;
  let idx_to_name := index_to_card_name self in
  mret (make_labels dims.1 idx_to_name, make_labels dims.2 idx_to_name).

(** [main] of PlotMatchupTable.py: the instance is built from the catalog
    request, then loaded from the file. *)
Definition plot_main (status_code : Z) (items supportItems : list string)
    (file : option (list (list string)))
    : result (list string * list string) * MatchupTable F :=
  (__init_tables status_code items supportItems ;; load_labels file)
    new_instance.
End methods.

(** *** Cells holding whole numbers

    The two count tables hold whole numbers; Python writes such a float as
    its integer digits followed by [.0] (below 1e16) and reads that text
    back.  This instance is the text form of those cells. *)

Fixpoint strip_point_zero (s : string) : option string :=
  match s with
  | EmptyString => None
  | String c s' =>
      if decide (s = ".0"%string) then Some EmptyString
      else String c <$> strip_point_zero s'
  end.

#[global] Instance whole_text : FloatText Z := {|
  float_str z := (py_str z +:+ ".0")%string;
  py_float s := strip_point_zero s ≫= py_int |}.

(** ** Vocabulary of the statements *)

Section vocabulary.
Context {F : Type} `{FloatText F}.

(** [R] relates the instance before a call to the instance after it,
    whether the call returns or raises. *)
Definition preserves {A} (R : relation (MatchupTable F)) (m : M F A) : Prop :=
  ∀ self, R self (m self).2.

(** A call changed nothing but the two index mappings. *)
Definition same_tables (s s' : MatchupTable F) : Prop :=
  wins_table s' = wins_table s ∧ total_games_table s' = total_games_table s ∧
  winrates_table s' = winrates_table s ∧ gamesProcessed s' = gamesProcessed s.

(** A call left the processed-game counter as it was. *)
Definition same_counter (s s' : MatchupTable F) : Prop :=
  gamesProcessed s' = gamesProcessed s.

(** A call left the two index mappings as they were. *)
Definition same_index (s s' : MatchupTable F) : Prop :=
  card_name_to_index s' = card_name_to_index s ∧
  index_to_card_name s' = index_to_card_name s.

(** The instance with both mappings emptied. *)
Definition clear_index (self : MatchupTable F) : MatchupTable F :=
  set_index_to_card_name (set_card_name_to_index self []) [].

(** What an index row holds, when it has two fields and a number. *)
Definition index_entry (row : list string) : option (string * Z) :=
  name ← row !! 0; field ← row !! 1; index ← py_int field; Some (name, index).

(** The cells of a table row, when all of them are numbers. *)
Definition row_cells (row : list string) : option (list F) :=
  mapM py_float (drop 1 row).

(** The two assignments an index row causes. *)
Definition add_entry (self : MatchupTable F) (e : string * Z) : MatchupTable F :=
  let self1 := set_card_name_to_index self
                 (dict_set (card_name_to_index self) e.1 e.2) in
  set_index_to_card_name self1 (dict_set (index_to_card_name self1) e.2 e.1).

(** Rows added to the list the divider count selects. *)
Definition acc_add (k : nat) (acc : row_lists (F:=F)) (m : list (list F))
    : row_lists :=
  match k with
  | 1 => {| wins_rows := wins_rows acc ++ m;
            total_games_rows := total_games_rows acc;
            winrates_rows := winrates_rows acc |}
  | 2 => {| wins_rows := wins_rows acc;
            total_games_rows := total_games_rows acc ++ m;
            winrates_rows := winrates_rows acc |}
  | 3 => {| wins_rows := wins_rows acc;
            total_games_rows := total_games_rows acc;
            winrates_rows := winrates_rows acc ++ m |}
  | _ => acc
  end.

(** The index is a bijection held in both directions: no name and no
    index occurs twice, and [index_to_card_name] lists the same pairs as
    [card_name_to_index], turned around. *)
Definition index_bijective (self : MatchupTable F) : Prop :=
  NoDup (card_name_to_index self).*1 ∧ NoDup (card_name_to_index self).*2 ∧
  index_to_card_name self = prod_swap <$> card_name_to_index self.

(** A two-dimensional array with at least one row. *)
Definition has_rows (a : ndarray F) : Prop :=
  match a with
  | Nd1_empty => True
  | Nd2 _ rows => rows ≠ []
  end.

(** Every cell is read back from its text as the same value ([float(str(x))
    == x]; of the doubles, only nan is not). *)
Definition text_exact (a : ndarray F) : Prop :=
  Forall (Forall (λ x, py_float (float_str x) = Some x)) (nd_rows a).



End vocabulary.

Section table_vocabulary.
Context {F : Type} `{FloatArith F}.

(** An [n] by [m] array. *)
Definition rectangular (n m : nat) (a : ndarray F) : Prop :=
  ∃ rows, a = Nd2 m rows ∧ length rows = n ∧ Forall (λ r, length r = m) rows.

(** An [n] by [n] array. *)
Definition square (n : nat) (a : ndarray F) : Prop := rectangular n n a.

(** The winrates table holds the derived value in every cell that [done]
    selects, and has kept its shape; nothing else of [self] has changed. *)
Definition derived (self : MatchupTable F) (n m : nat) (wins total : ndarray F)
    (done : nat → nat → Prop) (s : MatchupTable F) : Prop :=
  ∃ a, s = set_winrates_table self (Some a) ∧ rectangular n m a ∧
       ∀ i j w t, done i j →
         cell wins i j = Some w → cell total i j = Some t →
         cell a i j = Some (winrate_function w t f_one).

(** The state of an instance over a catalog of [n] cards: three [n] by [n]
    tables, and card indices between 0 and [n], which fit an int32. *)
Definition catalog_state (n : nat) (self : MatchupTable F) : Prop :=
  (∃ a, wins_table self = Some a ∧ square n a) ∧
  (∃ a, total_games_table self = Some a ∧ square n a) ∧
  (∃ a, winrates_table self = Some a ∧ square n a) ∧
  Forall (λ e, 0 ≤ e.2 < Z.of_nat n)%Z (card_name_to_index self) ∧
  (Z.of_nat n ≤ 2147483648)%Z.

(** The array with [f i j] applied to the cell at row [i], column [j]. *)
Definition nd_imap (f : nat → nat → F → F) (a : ndarray F) : ndarray F :=
  match a with
  | Nd1_empty => Nd1_empty
  | Nd2 ncols rows => Nd2 ncols (imap (λ i row, imap (f i) row) rows)
  end.

(** Cell [(i, j)] lies in the rows [ri] and the columns [ci]. *)
Definition in_ix (ri ci : list Z) (i j : nat) : bool :=
  bool_decide (Z.of_nat i ∈ ri ∧ Z.of_nat j ∈ ci).

(** [x + 1.0] when [b] holds, [x] otherwise. *)
Definition bump (b : bool) (x : F) : F := if b then f_add x f_one else x.

(** The cells of the wins table a game is credited to. *)
Definition credited (w : Winner) (team_idx opp_idx : list Z) (i j : nat) : bool :=
  match w with
  | TEAM => in_ix team_idx opp_idx i j
  | OPPONENT => in_ix opp_idx team_idx i j
  | DRAW => false
  end.

(** The index set a deck resolves to: the sorted distinct indices of its
    names that the index knows. *)
Definition resolve (self : MatchupTable F) (deck : Deck) : list Z :=
  np_unique (omap (dict_get (card_name_to_index self))
               (cards deck ++ supportCards deck)).

(** The instance after a game that counts: the wins table credited, the
    total-games table increased for the pairings in both directions, the
    counter increased. *)
Definition counted (self : MatchupTable F) (g : GameInfo) : MatchupTable F :=
  let team_idx := resolve self (team_deck g) in
  let opp_idx := resolve self (opponent_deck g) in
  {| wins_table :=
       nd_imap (λ i j, bump (credited (winner g) team_idx opp_idx i j))
         <$> wins_table self;
     total_games_table :=
       nd_imap (λ i j, bump (in_ix opp_idx team_idx i j))
         <$> (nd_imap (λ i j, bump (in_ix team_idx opp_idx i j))
                <$> total_games_table self);
     winrates_table := winrates_table self;
     card_name_to_index := card_name_to_index self;
     index_to_card_name := index_to_card_name self;
     gamesProcessed := (gamesProcessed self + 1)%Z |}.

(** The four updates at the end of [process_game]. *)
Definition count_game (w : Winner) (team_idx opp_idx : list Z) : M F unit :=
  match w with
  | TEAM => wins_iadd team_idx opp_idx
  | OPPONENT => wins_iadd opp_idx team_idx
  | DRAW => mret tt
  end ;;
  total_iadd team_idx opp_idx ;;
  total_iadd opp_idx team_idx ;;
  modify (λ self, set_gamesProcessed self (gamesProcessed self + 1)%Z).

(** A step that either returns with the counter one higher, or leaves the
    counter as it was. *)
Definition counts_once (k : M F unit) : Prop :=
  ∀ self,
    ((k self).1 = Ok tt ∧
     gamesProcessed (k self).2 = (gamesProcessed self + 1)%Z) ∨
    gamesProcessed (k self).2 = gamesProcessed self.

(** [total[i][j] == total[j][i]] for all [i], [j]. *)
Definition symmetric (a : ndarray F) : Prop := ∀ i j, cell a i j = cell a j i.
End table_vocabulary.

Section coverage_vocabulary.
Context {F : Type} `{FloatText F}.

(** A call left the two mappings and the winrates table as they were. *)
Definition same_index_winrates (s s' : MatchupTable F) : Prop :=
  card_name_to_index s' = card_name_to_index s ∧
  index_to_card_name s' = index_to_card_name s ∧
  winrates_table s' = winrates_table s.

(** The three tables are [n] by [n] arrays; nothing is asked of the index. *)
Definition tables_square (n : nat) (self : MatchupTable F) : Prop :=
  (∃ a, wins_table self = Some a ∧ rectangular n n a) ∧
  (∃ a, total_games_table self = Some a ∧ rectangular n n a) ∧
  (∃ a, winrates_table self = Some a ∧ rectangular n n a).

(** The same game, told by the other player. *)
Definition swap_sides (g : GameInfo) : GameInfo :=
  {| winner := match winner g with
               | TEAM => OPPONENT
               | OPPONENT => TEAM
               | DRAW => DRAW
               end;
     team_crowns := opponent_crowns g;
     opponent_crowns := team_crowns g;
     team_deck := opponent_deck g;
     opponent_deck := team_deck g |}.

(** The number of dividers (empty records) among rows. *)
Definition dividers (rows : list (list string)) : nat :=
  length (filter (.= []) rows).

(** Two records that are both dividers or both not, with the same fields
    after the first. *)
Definition same_cells (row row' : list string) : Prop :=
  (row = [] ↔ row' = []) ∧ drop 1 row = drop 1 row'.

(** A battle record of the ranked mode. *)
Definition ranked (game : Battlelog.Battle) : Prop :=
  Battlelog.type game = "pathOfLegend"%string.

(** The deck [process_player_recent_ranked_games] builds for one side, under
    the name-to-index mapping [d]; [None] when the side names no support
    card. *)
Definition side_deck (d : list (string * Z)) (side : Battlelog.Side)
    : option Deck :=
  support ← Battlelog.supportCards side !! 0;
  Some {| cards := filter (λ name, is_Some (dict_get d name))
                     (lower <$> Battlelog.cards side);
          supportCards := [lower support] |}.

(** The game [process_player_recent_ranked_games] hands to [process_game]
    for a battle record; [None] when a side or a support card is missing. *)
Definition game_info (d : list (string * Z)) (game : Battlelog.Battle)
    : option GameInfo :=
  team ← Battlelog.team game !! 0;
  opponent ← Battlelog.opponent game !! 0;
  team_deck ← side_deck d team;
  opponent_deck ← side_deck d opponent;
  Some {| winner :=
            if decide (Battlelog.crowns team > Battlelog.crowns opponent)%Z
            then TEAM
            else if decide (Battlelog.crowns opponent > Battlelog.crowns team)%Z
            then OPPONENT else DRAW;
          team_crowns := Battlelog.crowns team;
          opponent_crowns := Battlelog.crowns opponent;
          team_deck := team_deck; opponent_deck := opponent_deck |}.

#[global] Instance ranked_dec (game : Battlelog.Battle) : Decision (ranked game) :=
  decide (Battlelog.type game = "pathOfLegend"%string).

(** A deck without the card names the mapping [d] does not know. *)
Definition known_cards (d : list (string * Z)) (deck : Deck) : Deck :=
  {| cards := filter (λ name, is_Some (dict_get d name)) (cards deck);
     supportCards := supportCards deck |}.

(** A game with both decks cut down to known card names. *)
Definition known_game (d : list (string * Z)) (g : GameInfo) : GameInfo :=
  {| winner := winner g; team_crowns := team_crowns g;
     opponent_crowns := opponent_crowns g;
     team_deck := known_cards d (team_deck g);
     opponent_deck := known_cards d (opponent_deck g) |}.

(** The records [save_to_csv] writes for the index [d]. *)
Definition index_records (d : list (string * Z)) : list (list string) :=
  (λ '(key, value), [key; py_str value]) <$> d.
End coverage_vocabulary.

(** * Properties *)

(** Running a method body as far as its constructors let it. *)
Ltac mrun :=
  unfold mbind, M_bind, mret, M_ret, or_raise, raise, modify, get; cbn.

#[global] Instance same_tables_preorder {F} : PreOrder (@same_tables F).
Proof.
  split.
  - by intros s.
  - intros s1 s2 s3 (?&?&?&?) (?&?&?&?). unfold same_tables. by repeat split; etrans.
Qed.

#[global] Instance same_counter_preorder {F} : PreOrder (@same_counter F).
Proof. split; [by intros s|]. intros s1 s2 s3 ??. unfold same_counter in *. by etrans. Qed.

#[global] Instance same_index_preorder {F} : PreOrder (@same_index F).
Proof.
  split; [by intros s|].
  intros s1 s2 s3 [??] [??]. unfold same_index. by split; etrans.
Qed.

(** ** Python values *)

Lemma py_int_str (z : Z) : py_int (py_str z) = Some z.
Proof.
  unfold py_int, py_str.
  rewrite NilZero.isi.
  - simpl. f_equal. apply DecimalZ.of_to.
  - destruct z; simpl; try discriminate.
    intros [= Hp]. by apply (DecimalPos.Unsigned.to_uint_nonnil p).
  - destruct z; simpl; try discriminate.
    intros [= Hp]. by apply (DecimalPos.Unsigned.to_uint_nonnil p).
Qed.

Lemma strip_point_zero_app (s : string) :
  strip_point_zero (s +:+ ".0") = Some s.
Proof.
  induction s as [|c s IH]; [done|].
  change (String c s +:+ ".0")%string with (String c (s +:+ ".0")).
  cbn [strip_point_zero]. rewrite IH.
  destruct (decide _) as [Heq|]; [|done].
  exfalso. injection Heq as _ Heq. destruct s as [|c' s]; [done|].
  injection Heq as _ Heq. by destruct s.
Qed.

Lemma whole_text_roundtrip (z : Z) : py_float (float_str z) = Some z.
Proof.
  cbn [py_float float_str whole_text].
  rewrite strip_point_zero_app. apply py_int_str.
Qed.

(** ** dict *)

Section pydict_facts.
Context {K V : Type} `{EqDecision K}.
Implicit Types (d : list (K * V)) (k : K) (v : V).

Lemma dict_set_fresh d k v :
  k ∉ d.*1 → dict_set d k v = d ++ [(k, v)].
Proof.
  induction d as [|[k' v'] d IH]; intros Hk; [done|].
  cbn in *. apply not_elem_of_cons in Hk as [Hne Hk].
  rewrite decide_False by done. by rewrite IH.
Qed.

Lemma dict_set_elem d k v x :
  x ∈ dict_set d k v → x.2 = v ∨ x ∈ d.
Proof.
  induction d as [|[k' v'] d IH]; cbn.
  - intros ->%list_elem_of_singleton. by left.
  - destruct (decide (k' = k)) as [->|Hne];
      intros [->|Hin]%elem_of_cons; cbn; auto.
    + right. by right.
    + right. left.
    + destruct (IH Hin); auto. right. by right.
Qed.

Lemma dict_get_elem d k v : dict_get d k = Some v → (k, v) ∈ d.
Proof.
  induction d as [|[k' v'] d IH]; [done|]. cbn.
  destruct (decide (k' = k)) as [->|Hne].
  - intros [= ->]. left.
  - intros Hget. right. auto.
Qed.

End pydict_facts.

(** ** numpy arrays *)

Section array_facts.
Context {F : Type} `{FloatArith F}.

Lemma cell_nd_imap f (a : ndarray F) i j :
  cell (nd_imap f a) i j = f i j <$> cell a i j.
Proof.
  destruct a as [|ncols rows]; [done|]. cbn.
  rewrite list_lookup_imap. destruct (rows !! i) as [row|]; [|done]. cbn.
  by rewrite list_lookup_imap.
Qed.

Lemma square_nd_imap n f (a : ndarray F) : square n a → square n (nd_imap f a).
Proof.
  intros (rows & -> & Hlen & Hrows). eexists. split; [done|].
  rewrite length_imap. split; [done|].
  apply Forall_lookup. intros i x. rewrite list_lookup_imap.
  destruct (rows !! i) as [row|] eqn:Hi; [|done]. intros [= <-].
  rewrite length_imap. exact (Forall_lookup_1 _ _ _ _ Hrows Hi).
Qed.

Lemma square_np_zeros n : square n (np_zeros n n).
Proof.
  eexists. split; [done|]. rewrite length_replicate. split; [done|].
  apply Forall_replicate. by rewrite length_replicate.
Qed.


Lemma cell_np_zeros_lt n i j :
  cell (np_zeros (F:=F) n n) i j = if decide (i < n ∧ j < n) then Some f_zero else None.
Proof.
  cbn. destruct (decide (i < n)) as [Hi|Hi].
  - rewrite lookup_replicate_2 by done. cbn.
    destruct (decide (j < n)) as [Hj|Hj].
    + rewrite lookup_replicate_2 by done. by rewrite decide_True.
    + rewrite (proj1 (lookup_replicate_None _ _ j)) by lia.
      by rewrite decide_False by tauto.
  - rewrite (proj1 (lookup_replicate_None _ _ i)) by lia.
    by rewrite decide_False by tauto.
Qed.

Lemma np_zeros_symmetric n : symmetric (np_zeros (F:=F) n n).
Proof.
  intros i j. rewrite !cell_np_zeros_lt.
  destruct (decide (i < n ∧ j < n)), (decide (j < n ∧ i < n)); (done || tauto).
Qed.



Lemma norm_index_in_range n (l : list Z) :
  Forall (λ z, 0 ≤ z < Z.of_nat n)%Z l →
  mapM (norm_index n) l = Some (Z.to_nat <$> l).
Proof.
  intros Hl. apply mapM_Some_2, Forall2_fmap_r, Forall_Forall2_diag.
  eapply list.Forall_impl; [exact Hl|]. intros z Hz. unfold norm_index.
  by rewrite decide_True.
Qed.

Lemma elem_of_to_nat (l : list Z) (i : nat) :
  Forall (λ z, 0 ≤ z)%Z l → i ∈ Z.to_nat <$> l ↔ Z.of_nat i ∈ l.
Proof.
  intros Hl. rewrite list_elem_of_fmap. split.
  - intros (z & -> & Hz). rewrite list.Forall_forall in Hl.
    rewrite Z2Nat.id; auto.
  - intros Hi. exists (Z.of_nat i). by rewrite Nat2Z.id.
Qed.

(** [a[np.ix_(ri, ci)] += 1.0] with indices in range adds one to the cells
    of the selected rows and columns, and to no other. *)
Lemma ix_iadd_one_in_range n (a : ndarray F) (ri ci : list Z) :
  square n a →
  Forall (λ z, 0 ≤ z < Z.of_nat n)%Z ri → Forall (λ z, 0 ≤ z < Z.of_nat n)%Z ci →
  ix_iadd_one a ri ci = Some (nd_imap (λ i j, bump (in_ix ri ci i j)) a).
Proof.
  intros (rows & -> & Hlen & Hrows) Hri Hci. unfold ix_iadd_one.
  rewrite Hlen, !norm_index_in_range by done. cbn. do 2 f_equal.
  apply imap_ext. intros i row _. apply imap_ext. intros j x _. cbn.
  unfold bump, in_ix.
  rewrite (bool_decide_ext (i ∈ Z.to_nat <$> ri ∧ j ∈ Z.to_nat <$> ci)
             (Z.of_nat i ∈ ri ∧ Z.of_nat j ∈ ci)); [done|].
  rewrite !elem_of_to_nat; [done|..];
    (eapply list.Forall_impl; [eassumption|]; cbn; lia).
Qed.

Lemma np_unique_elem (a : list Z) (i : Z) : i ∈ np_unique a ↔ i ∈ a.
Proof.
  unfold np_unique. by rewrite merge_sort_Permutation, elem_of_remove_dups.
Qed.

Lemma np_unique_NoDup (a : list Z) : NoDup (np_unique a).
Proof.
  unfold np_unique. rewrite merge_sort_Permutation. apply NoDup_remove_dups.
Qed.

Lemma np_unique_sorted (a : list Z) : Sorted Z.le (np_unique a).
Proof. apply (Sorted_merge_sort Z.le). Qed.
End array_facts.

(** ** process_game *)

Section game_facts.
Context {F : Type} `{FloatArith F}.
Implicit Types (self : MatchupTable F) (g : GameInfo) (deck : Deck).

Lemma resolve_elem self deck (i : Z) :
  i ∈ resolve self deck ↔
  ∃ name, name ∈ cards deck ++ supportCards deck ∧
          dict_get (card_name_to_index self) name = Some i.
Proof. unfold resolve. by rewrite np_unique_elem, list_elem_of_omap. Qed.

Lemma resolve_Forall (P : Z → Prop) self deck :
  Forall (λ e, P e.2) (card_name_to_index self) → Forall P (resolve self deck).
Proof.
  intros Hall. apply list.Forall_forall. intros i (name & _ & Hget)%resolve_elem.
  apply dict_get_elem in Hget. rewrite list.Forall_forall in Hall.
  apply (Hall _ Hget).
Qed.

Lemma indices_for_deck_run self deck :
  Forall (λ e, in_int32 e.2) (card_name_to_index self) →
  _indices_for_deck deck self = (Ok (resolve self deck), self).
Proof.
  intros Hall. unfold _indices_for_deck, np_array_int32. mrun.
  rewrite (proj2 (forallb_forall _ _)); [done|].
  intros i (name & _ & Hget)%list_elem_of_In%list_elem_of_omap.
  apply dict_get_elem in Hget. rewrite list.Forall_forall in Hall.
  apply Is_true_true, (Hall _ Hget).
Qed.

Lemma catalog_state_int32 n self :
  catalog_state n self → Forall (λ e, in_int32 e.2) (card_name_to_index self).
Proof.
  intros (_ & _ & _ & Hidx & Hn). eapply list.Forall_impl; [exact Hidx|].
  intros e He. cbn in He. unfold in_int32. apply Is_true_true.
  apply andb_true_iff. split; apply Z.leb_le; lia.
Qed.

Lemma catalog_state_resolve n self deck :
  catalog_state n self → Forall (λ z, 0 ≤ z < Z.of_nat n)%Z (resolve self deck).
Proof. intros (_ & _ & _ & Hidx & _). by apply resolve_Forall. Qed.

(** What [process_game] does on the state of an instance over a catalog:
    nothing for a draw or an empty side, the counted game otherwise. *)
Lemma process_game_run n self g :
  catalog_state n self →
  process_game g self =
  (Ok tt,
   if bool_decide (winner g = DRAW ∨ resolve self (team_deck g) = [] ∨
                   resolve self (opponent_deck g) = [])
   then self else counted self g).
Proof.
  intros Hcat. pose proof (catalog_state_int32 n self Hcat) as Hint.
  pose proof (catalog_state_resolve n self (team_deck g) Hcat) as Hteam.
  pose proof (catalog_state_resolve n self (opponent_deck g) Hcat) as Hopp.
  destruct Hcat as ((w & Hw & Hsqw) & (t & Ht & Hsqt) & _).
  unfold process_game. unfold mbind at 1, M_bind at 1, get at 1.
  rewrite bool_decide_false by (rewrite Hw, Ht; by intros [?|?]).
  destruct (decide (winner g = DRAW)) as [Hdraw|Hdraw].
  { by rewrite bool_decide_true by auto. }
  unfold mbind at 1, M_bind at 1. rewrite indices_for_deck_run by done.
  unfold mbind at 1, M_bind at 1. rewrite indices_for_deck_run by done.
  destruct (resolve self (team_deck g)) as [|t0 team_idx] eqn:Hrt.
  { by rewrite bool_decide_true by auto. }
  destruct (resolve self (opponent_deck g)) as [|o0 opp_idx] eqn:Hro.
  { by rewrite bool_decide_true by auto. }
  rewrite bool_decide_false by (by intros [?|[?|?]]).
  cbn [length Nat.eqb orb].
  unfold counted. rewrite Hrt, Hro, Hw, Ht. cbn [fmap option_fmap option_map].
  unfold wins_iadd, total_iadd. 
  pose proof (square_nd_imap n (λ i j, bump (in_ix (t0 :: team_idx) (o0 :: opp_idx) i j))
                t Hsqt) as Hsqt1.
  destruct (winner g) eqn:Hwin; [| |done];
    repeat first [ rewrite Hw | rewrite Ht
                 | rewrite (ix_iadd_one_in_range n) by done
                 | progress mrun ];
    reflexivity.
Qed.

Lemma counted_catalog_state n self g :
  catalog_state n self → catalog_state n (counted self g).
Proof.
  intros ((w & Hw & Hsqw) & (t & Ht & Hsqt) & Hr & Hidx & Hn).
  unfold catalog_state, counted. cbn. rewrite Hw, Ht. cbn.
  repeat split; eauto using square_nd_imap.
Qed.

Lemma process_game_catalog_state n self g :
  catalog_state n self → catalog_state n (process_game g self).2.
Proof.
  intros Hcat. rewrite (process_game_run n) by done. cbn.
  case_bool_decide; [done|]. by apply counted_catalog_state.
Qed.

(** A property of the state that every game keeps holds after any
    sequence of games, and every game of the sequence returns. *)
Lemma process_games_invariant n (I : MatchupTable F → Prop) games self :
  (∀ s g, catalog_state n s → I s → I (process_game g s).2) →
  catalog_state n self → I self →
  ∃ self', process_games games self = (Ok tt, self') ∧
           catalog_state n self' ∧ I self'.
Proof.
  intros Hstep. revert self.
  induction games as [|g games IH]; intros self Hcat HI.
  - by exists self.
  - unfold process_games. cbn [for_each]. unfold mbind, M_bind.
    pose proof (process_game_catalog_state n self g Hcat) as Hcat'.
    pose proof (Hstep self g Hcat HI) as HI'.
    rewrite (process_game_run n) in * by done. cbn in *.
    apply IH; done.
Qed.

Lemma in_ix_swap (ri ci : list Z) (i j : nat) : in_ix ri ci j i = in_ix ci ri i j.
Proof. unfold in_ix. apply bool_decide_ext. tauto. Qed.

Lemma bump_comm (a b : bool) (x : F) : bump a (bump b x) = bump b (bump a x).
Proof. by destruct a, b. Qed.

Lemma counted_symmetric self g t :
  total_games_table self = Some t → symmetric t →
  ∃ t', total_games_table (counted self g) = Some t' ∧ symmetric t'.
Proof.
  intros Ht Hsym. unfold counted. cbn. rewrite Ht. cbn. eexists. split; [done|].
  intros i j. rewrite !cell_nd_imap, (Hsym j i).
  rewrite (in_ix_swap (resolve self (opponent_deck g)) _ i j).
  rewrite (in_ix_swap (resolve self (team_deck g)) _ i j).
  destruct (cell t i j) as [x|]; [|done]. cbn. by rewrite bump_comm.
Qed.

(** The mappings [__init_tables] builds hold indices below the number of
    cards. *)
Lemma init_loop n (l : list (nat * string)) self :
  Forall (λ p, p.1 < n) l →
  Forall (λ e, 0 ≤ e.2 < Z.of_nat n)%Z (card_name_to_index self) →
  ∃ self',
    for_each l (λ '(index, card),
      modify (λ self, set_card_name_to_index self
                (dict_set (card_name_to_index self) (lower card) (Z.of_nat index))) ;;
      modify (λ self, set_index_to_card_name self
                (dict_set (index_to_card_name self) (Z.of_nat index) (lower card))))
      self
    = (Ok tt, self') ∧
    same_tables self self' ∧
    Forall (λ e, 0 ≤ e.2 < Z.of_nat n)%Z (card_name_to_index self').
Proof.
  intros Hl. revert self. induction Hl as [|[index card] l Hp _ IH]; intros self Hidx.
  - by exists self.
  - cbn [for_each]. mrun.
    edestruct IH as (self' & -> & Hsame & Hidx'); last first.
    { exists self'. split; [done|]. split; [|done]. etrans; [|exact Hsame]. done. }
    cbn. apply list.Forall_forall. intros e [He|He]%dict_set_elem.
    + rewrite He. cbn in Hp. lia.
    + rewrite list.Forall_forall in Hidx. auto.
Qed.

(** The instance [__init__] builds from a catalog: all-zero tables over
    the catalog's cards. *)
Lemma init_run (items supportItems : list string) :
  let n := length (items ++ supportItems) in
  (Z.of_nat n ≤ 2147483648)%Z →
  ∃ self,
    __init__ 200 items supportItems = (Ok tt, self) ∧
    catalog_state n self ∧
    wins_table self = Some (np_zeros n n) ∧
    total_games_table self = Some (np_zeros n n) ∧
    winrates_table self = Some (np_zeros n n) ∧
    gamesProcessed self = 0%Z.
Proof.
  intros n Hn. unfold __init__, __init_tables.
  rewrite decide_False by (by intros []).
  unfold mbind at 1, M_bind at 1.
  edestruct (init_loop n (imap (λ index card, (index, card)) (items ++ supportItems))
               new_instance) as (self1 & -> & (Hw & Ht & Hr & Hg) & Hidx).
  { apply Forall_lookup. intros i [index card]. rewrite list_lookup_imap.
    destruct ((items ++ supportItems) !! i) eqn:Hi; [|done].
    intros [= <- <-]. cbn. by apply lookup_lt_Some in Hi. }
  { constructor. }
  mrun. eexists. split; [done|]. cbn.
  repeat split; eauto using square_np_zeros.
Qed.

(** Over an empty catalog the three tables have shape (0, 0). *)
Lemma init_empty_catalog :
  __init__ 200 [] []
  = (Ok tt,
     {| wins_table := Some (Nd2 (F:=F) 0 []); total_games_table := Some (Nd2 0 []);
        winrates_table := Some (Nd2 0 []);
        card_name_to_index := []; index_to_card_name := [];
        gamesProcessed := 0 |}).
Proof. reflexivity. Qed.
End game_facts.

(** One game over three cards, in double arithmetic: "knight" with the
    tower troop "archer" beats "wizard"; a name the catalog lacks is
    dropped. *)
Example one_game_three_cards :
  let g := {| winner := TEAM; team_crowns := 2; opponent_crowns := 1;
              team_deck := {| cards := ["knight"]%string;
                              supportCards := ["archer"]%string |};
              opponent_deck := {| cards := ["wizard"; "ghost"]%string;
                                  supportCards := [] |} |} in
  let after :=
    (__init_tables 200 ["Knight"; "Archer"]%string ["Wizard"]%string ;;
     process_game g ;; calculate_winrates) (new_instance (F:=float)) in
  after.1 = Ok tt ∧
  wins_table after.2 = Some (Nd2 3 [[0; 0; 1]; [0; 0; 1]; [0; 0; 0]]%float) ∧
  total_games_table after.2
    = Some (Nd2 3 [[0; 0; 1]; [0; 0; 1]; [1; 1; 0]]%float) ∧
  (winrates_table after.2 ≫= λ a, cell a 0 2) = Some (2 / 3)%float ∧
  (winrates_table after.2 ≫= λ a, cell a 1 0) = Some 0.5%float ∧
  gamesProcessed after.2 = 1%Z.
Proof. vm_compute. repeat split; reflexivity. Qed.

(** The same catalog after a won, a lost and a mirrored game, in double
    arithmetic: every derived winrate is strictly between 0 and 1. *)
Example three_games_in_doubles :
  let g w deck : GameInfo :=
    {| winner := w; team_crowns := 1; opponent_crowns := 0;
       team_deck := {| cards := ["knight"; "wizard"]%string; supportCards := [] |};
       opponent_deck := {| cards := deck; supportCards := ["archer"]%string |} |} in
  let after :=
    (__init_tables 200 ["Knight"; "Archer"]%string ["Wizard"]%string ;;
     process_games [g TEAM ["wizard"]; g OPPONENT ["wizard"];
                    g TEAM ["knight"; "wizard"]]%string ;;
     calculate_winrates) (new_instance (F:=float)) in
  after.1 = Ok tt ∧
  (nd_rows <$> wins_table after.2)
    = Some [[1; 2; 2]; [1; 0; 1]; [2; 2; 3]]%float ∧
  (nd_rows <$> total_games_table after.2)
    = Some [[2; 3; 4]; [3; 0; 3]; [4; 3; 6]]%float ∧
  (nd_rows <$> winrates_table after.2)
    = Some [[0.5; 3 / 5; 0.5]; [2 / 5; 0.5; 2 / 5]; [0.5; 3 / 5; 0.5]]%float ∧
  (forallb (forallb (λ x, PrimFloat.ltb 0 x && PrimFloat.ltb x 1))
     <$> (nd_rows <$> winrates_table after.2)) = Some true.
Proof. vm_compute. repeat split; reflexivity. Qed.

(** ** The method monad: what a call leaves untouched *)

Section frame.
Context {F : Type}.

Context (R : relation (MatchupTable F)) `{!PreOrder R}.

Lemma preserves_ret {A} (a : A) : preserves R (mret a).
Proof. intros self. reflexivity. Qed.

Lemma preserves_raise {A} e : preserves R (raise (A:=A) e).
Proof. intros self. reflexivity. Qed.

Lemma preserves_get : preserves R get.
Proof. intros self. reflexivity. Qed.

Lemma preserves_or_raise {A} e (o : option A) : preserves R (or_raise e o).
Proof. destruct o; [apply preserves_ret|apply preserves_raise]. Qed.

Lemma preserves_modify f : (∀ self, R self (f self)) → preserves R (modify f).
Proof. intros Hf self. apply Hf. Qed.

Lemma preserves_bind {A B} (m : M F A) (f : A → M F B) :
  preserves R m → (∀ a, preserves R (f a)) → preserves R (m ≫= f).
Proof.
  intros Hm Hf self. unfold mbind, M_bind.
  specialize (Hm self). destruct (m self) as [[a|e] self1]; cbn in *; [|done].
  etrans; [exact Hm|apply Hf].
Qed.

Lemma preserves_for_each {A} (l : list A) (body : A → M F unit) :
  (∀ x, preserves R (body x)) → preserves R (for_each l body).
Proof.
  intros Hbody. induction l as [|x l IH]; cbn [for_each].
  - apply preserves_ret.
  - apply preserves_bind; auto.
Qed.
End frame.

(** Steps of a method body, taken apart one bind at a time. *)
Ltac frame_step :=
  lazymatch goal with
  | |- PreOrder _ => apply _
  | |- preserves _ (mret _) => apply preserves_ret
  | |- preserves _ (raise _) => apply preserves_raise
  | |- preserves _ get => apply preserves_get
  | |- preserves _ (or_raise _ _) => apply preserves_or_raise
  | |- preserves _ (mbind _ _) => apply preserves_bind; [..|intros ?]
  | |- preserves _ (for_each _ _) => apply preserves_for_each; [..|intros ?]
  | |- preserves _ (modify _) => apply preserves_modify; intros ?
  | |- preserves _ (if ?b then _ else _) => destruct b
  | |- preserves _ (match ?x with _ => _ end) => destruct x
  end.

(** ** calculate_winrates *)

Section loop_facts.
Context {F : Type}.

(** A loop whose body returns and extends an invariant over the items
    walked so far. *)
Lemma for_each_invariant {A} (I : list A → MatchupTable F → Prop)
    (l : list A) (body : A → M F unit) (self : MatchupTable F) :
  I [] self →
  (∀ done x s, x ∈ l → I done s →
     ∃ s', body x s = (Ok tt, s') ∧ I (done ++ [x]) s') →
  ∃ self', for_each l body self = (Ok tt, self') ∧ I l self'.
Proof.
  intros Hinit Hstep.
  cut (∀ rest done s, (∀ x, x ∈ rest → x ∈ l) → I done s →
         ∃ s', for_each rest body s = (Ok tt, s') ∧ I (done ++ rest) s').
  { intros Hcut. by apply (Hcut l [] self). }
  induction rest as [|x rest IH]; intros done s Hsub Hdone.
  - exists s. by rewrite app_nil_r.
  - destruct (Hstep done x s) as (s1 & Hx & Hdone1); [apply Hsub; left|done|].
    destruct (IH (done ++ [x]) s1) as (s2 & Hrest & Hdone2);
      [intros y Hy; apply Hsub; by right|done|].
    exists s2. cbn [for_each]. unfold mbind, M_bind. rewrite Hx.
    split; [done|]. by rewrite <- app_assoc in Hdone2.
Qed.
End loop_facts.

Section winrate_facts.
Context {F : Type} `{FloatArith F}.
Context (self : MatchupTable F) (n m : nat) (wins total : ndarray F).
Context (Hwins : wins_table self = Some wins).
Context (Htotal : total_games_table self = Some total).
Context (Hwins_shape : rectangular n m wins).
Context (Htotal_shape : rectangular n m total).

Lemma rectangular_cell (a : ndarray F) i j :
  rectangular n m a → i < n → j < m → is_Some (cell a i j).
Proof.
  intros (rows & -> & Hlen & Hrows) Hi Hj. cbn.
  destruct (lookup_lt_is_Some_2 rows i) as [row Hrow]; [lia|].
  rewrite Hrow. cbn. apply lookup_lt_is_Some_2.
  by rewrite (Forall_lookup_1 _ _ _ _ Hrows Hrow).
Qed.

Lemma rectangular_cell_lt (a : ndarray F) i j x :
  rectangular n m a → cell a i j = Some x → i < n ∧ j < m.
Proof.
  intros (rows & -> & Hlen & Hrows). cbn.
  destruct (rows !! i) as [row|] eqn:Hrow; [|done]. cbn. intros Hx.
  apply lookup_lt_Some in Hx.
  rewrite (Forall_lookup_1 _ _ _ _ Hrows Hrow) in Hx.
  apply lookup_lt_Some in Hrow. lia.
Qed.

(** [a[i, j] = v] on an array with such a cell. *)
Lemma nd_set_rectangular (a : ndarray F) i j v :
  rectangular n m a → i < n → j < m →
  ∃ a', nd_set a i j v = Some a' ∧ rectangular n m a' ∧
        ∀ i' j', cell a' i' j'
                 = if decide (i' = i ∧ j' = j) then Some v else cell a i' j'.
Proof.
  intros (rows & -> & Hlen & Hrows) Hi Hj. cbn.
  destruct (lookup_lt_is_Some_2 rows i) as [row Hrow]; [lia|].
  pose proof (Forall_lookup_1 _ _ _ _ Hrows Hrow) as Hrowlen. cbn in Hrowlen.
  rewrite Hrow. cbn. rewrite decide_True by lia.
  eexists. split; [done|]. split.
  - eexists. split; [done|]. rewrite length_insert. split; [done|].
    apply Forall_insert; [done|]. by rewrite length_insert.
  - intros i' j'. cbn. destruct (decide (i' = i)) as [->|Hi'].
    + rewrite list_lookup_insert_eq by lia. cbn. rewrite Hrow. cbn.
      destruct (decide (j' = j)) as [->|Hj'].
      * rewrite list_lookup_insert_eq by lia. by rewrite decide_True.
      * rewrite list_lookup_insert_ne by done. by rewrite decide_False by tauto.
    + rewrite list_lookup_insert_ne by done. by rewrite decide_False by tauto.
Qed.

Lemma derived_weaken (done done' : nat → nat → Prop) s :
  (∀ i j, i < n → j < m → done' i j → done i j) →
  derived self n m wins total done s → derived self n m wins total done' s.
Proof.
  intros Himpl (a & -> & Ha & Hcells). exists a. repeat split; [done|].
  intros i j w t Hd Hw Ht. apply Hcells; [|done..].
  destruct (rectangular_cell_lt wins i j w); auto.
Qed.

(** The body of the inner loop derives one more cell. *)
Lemma derive_cell (done : nat → nat → Prop) i j s :
  i < n → j < m → derived self n m wins total done s →
  ∃ s',
    (wins ← table_cell wins_table i j;
     total_games ← table_cell total_games_table i j;
     self ← get;
     a ← or_raise TypeError (winrates_table self);
     a' ← or_raise IndexError
            (nd_set a i j (winrate_function wins total_games f_one));
     modify (λ self, set_winrates_table self (Some a'))) s = (Ok tt, s') ∧
    derived self n m wins total (λ i' j', done i' j' ∨ (i' = i ∧ j' = j)) s'.
Proof.
  intros Hi Hj (a & -> & Ha & Hcells).
  destruct (rectangular_cell wins i j) as [w Hw]; [done..|].
  destruct (rectangular_cell total i j) as [t Ht]; [done..|].
  destruct (nd_set_rectangular a i j (winrate_function w t f_one))
    as (a' & Hset & Ha' & Hcells'); [done..|].
  eexists. split.
  { unfold table_cell. mrun. rewrite Hwins. mrun. rewrite Hw. mrun.
    rewrite Htotal. mrun. rewrite Ht. mrun. rewrite Hset. reflexivity. }
  exists a'. repeat split; [done|].
  intros i' j' w' t' Hd Hw' Ht'. rewrite Hcells'.
  destruct (decide (i' = i ∧ j' = j)) as [[-> ->]|Hne].
  - congruence.
  - destruct Hd as [Hd|Hd]; [by apply Hcells|tauto].
Qed.

(** The inner loop derives one more row. *)
Lemma derive_row (done : nat → nat → Prop) i s :
  i < n → derived self n m wins total done s →
  ∃ s',
    for_each (seq 0 m) (λ j,
      wins ← table_cell wins_table i j;
      total_games ← table_cell total_games_table i j;
      self ← get;
      a ← or_raise TypeError (winrates_table self);
      a' ← or_raise IndexError
             (nd_set a i j (winrate_function wins total_games f_one));
      modify (λ self, set_winrates_table self (Some a'))) s = (Ok tt, s') ∧
    derived self n m wins total (λ i' j', done i' j' ∨ i' = i) s'.
Proof.
  intros Hi Hs.
  edestruct (for_each_invariant
    (λ js s, derived self n m wins total
               (λ i' j', done i' j' ∨ (i' = i ∧ j' ∈ js)) s))
    as (s' & Hrun & Hs'); [| |exists s'; split; [exact Hrun|]].
  - eapply derived_weaken; [|exact Hs].
    intros i' j' _ _ Hd. destruct Hd as [Hd|[_ Hnil]]; [done|].
    by apply elem_of_nil in Hnil.
  - intros js j s0 Hj%elem_of_seq Hs0.
    destruct (derive_cell _ i j s0 Hi ltac:(lia) Hs0) as (s1 & Hrun & Hs1).
    exists s1. split; [exact Hrun|].
    eapply derived_weaken; [|exact Hs1]. cbn.
    intros i' j' _ _ Hd. destruct Hd as [Hd|[-> Hd]]; [auto|].
    apply elem_of_app in Hd as [Hd| ->%list_elem_of_singleton]; auto.
  - eapply derived_weaken; [|exact Hs']. cbn.
    intros i' j' _ Hj' Hd. destruct Hd as [Hd| ->]; [by left|]. right. split; [done|].
    apply elem_of_seq. lia.
Qed.

(** [calculate_winrates] on three tables of one shape. *)
Lemma calculate_winrates_run (winrates : ndarray F) :
  winrates_table self = Some winrates → rectangular n m winrates →
  ∃ winrates',
    calculate_winrates self = (Ok tt, set_winrates_table self (Some winrates')) ∧
    rectangular n m winrates' ∧
    ∀ i j w t, cell wins i j = Some w → cell total i j = Some t →
               cell winrates' i j = Some (winrate_function w t f_one).
Proof.
  intros Hr Hr_shape. unfold calculate_winrates.
  unfold mbind at 1, M_bind at 1, get at 1. rewrite Hwins.
  destruct Hwins_shape as (W & HW & HWlen & HWrows).
  rewrite HW. mrun. rewrite HWlen.
  edestruct (for_each_invariant
    (λ seen s, derived self n m wins total (λ i' j', i' ∈ seen) s))
    as (s' & Hrun & (a & -> & Ha & Hcells)); [| |rewrite Hrun].
  - exists winrates. split; [by destruct self; cbn in *; subst|].
    split; [done|]. intros i j w t Hnil. by apply elem_of_nil in Hnil.
  - intros seen i s0 Hi%elem_of_seq Hs0.
    destruct (derive_row _ i s0 ltac:(lia) Hs0) as (s1 & Hrun & Hs1).
    exists s1. split; [exact Hrun|].
    eapply derived_weaken; [|exact Hs1]. cbn.
    intros i' j' _ _ Hd.
    apply elem_of_app in Hd as [Hd| ->%list_elem_of_singleton]; auto.
  - exists a. repeat split; [done|]. intros i j w t Hw Ht.
    assert (cell wins i j = Some w) as Hw' by (rewrite HW; exact Hw).
    apply Hcells; [|done..]. apply elem_of_seq.
    destruct (rectangular_cell_lt wins i j w); [by rewrite HW; eexists|done|lia].
Qed.
End winrate_facts.

(** ** The processed-game counter *)

Section counter_facts.
Context {F : Type} `{FloatArith F}.

Lemma counts_once_incr :
  counts_once (F:=F)
    (modify (λ self, set_gamesProcessed self (gamesProcessed self + 1)%Z)).
Proof. intros self. by left. Qed.

Lemma counts_once_bind (m k : M F unit) :
  preserves same_counter m → counts_once k → counts_once (m ;; k).
Proof.
  intros Hm Hk self. unfold mbind, M_bind. specialize (Hm self).
  unfold same_counter in Hm. destruct (m self) as [[[]|e] s1]; cbn in *.
  - rewrite <- Hm. apply Hk.
  - by right.
Qed.

Lemma count_game_counts_once w team_idx opp_idx :
  counts_once (count_game w team_idx opp_idx).
Proof.
  unfold count_game, wins_iadd, total_iadd.
  apply counts_once_bind; [destruct w; repeat first [ frame_step | by hnf ]|].
  apply counts_once_bind; [repeat first [ frame_step | by hnf ]|].
  apply counts_once_bind; [repeat first [ frame_step | by hnf ]|].
  apply counts_once_incr.
Qed.

(** [process_game], check by check. *)
Lemma process_game_eq (self : MatchupTable F) (g : GameInfo) :
  process_game g self =
  if bool_decide (wins_table self = None ∨ total_games_table self = None)
  then (Ok tt, self)
  else if decide (winner g = DRAW) then (Ok tt, self)
  else match _indices_for_deck (team_deck g) self with
       | (Raise e, s) => (Raise e, s)
       | (Ok team_idx, s) =>
           match _indices_for_deck (opponent_deck g) s with
           | (Raise e, s) => (Raise e, s)
           | (Ok opp_idx, s) =>
               if (length team_idx =? 0) || (length opp_idx =? 0)
               then (Ok tt, s)
               else count_game (winner g) team_idx opp_idx s
           end
       end.
Proof.
  unfold process_game. unfold mbind at 1, M_bind at 1, get at 1.
  case_bool_decide; [done|]. destruct (decide _); [done|].
  unfold mbind at 1, M_bind at 1.
  destruct (_indices_for_deck (team_deck g) self) as [[team_idx|e] s1]; [|done].
  unfold mbind at 1, M_bind at 1.
  destruct (_indices_for_deck (opponent_deck g) s1) as [[opp_idx|e] s2]; [|done].
  by destruct (_ || _).
Qed.

Lemma indices_for_deck_state (self : MatchupTable F) (deck : Deck) :
  (_indices_for_deck deck self).2 = self.
Proof. unfold _indices_for_deck. mrun. by destruct (np_array_int32 _). Qed.

End counter_facts.

(** ** load_from_csv *)

Section load_facts.
Context {F : Type} `{FloatText F}.
Implicit Types (self s : MatchupTable F) (acc : row_lists (F:=F)).

Lemma read_rows_divider rest k acc self :
  read_rows ([] :: rest) k acc self = read_rows rest (k + 1) acc self.
Proof. reflexivity. Qed.

Lemma read_rows_index idx d rest acc self :
  mapM index_entry idx = Some d →
  read_rows (idx ++ rest) 0 acc self = read_rows rest 0 acc (foldl add_entry self d).
Proof.
  intros Hd%mapM_Some_1. revert self.
  induction Hd as [|row e idx d Hrow _ IH]; intros self; [done|].
  unfold index_entry in Hrow.
  destruct row as [|name [|field row]]; try done.
  cbn in Hrow. destruct (py_int field) as [index|] eqn:Hint; [|done].
  injection Hrow as <-.
  cbn [app read_rows length Nat.eqb lookup list_lookup].
  mrun. rewrite Hint. mrun. apply IH.
Qed.

Lemma acc_add_app k acc r m :
  acc_add k (acc_add k acc [r]) m = acc_add k acc (r :: m).
Proof.
  destruct k as [|[|[|[|k]]]]; cbn; try done;
    by rewrite <- app_assoc.
Qed.

Lemma acc_add_nil k acc : acc_add k acc [] = acc.
Proof.
  destruct acc. destruct k as [|[|[|[|k]]]]; cbn; try done;
    by rewrite app_nil_r.
Qed.

(** One table row, read under divider count 1, 2 or 3. *)
Lemma read_rows_table_row k row r rest acc self :
  1 ≤ k ≤ 3 → row ≠ [] → row_cells row = Some r →
  read_rows (row :: rest) k acc self = read_rows rest k (acc_add k acc [r]) self.
Proof.
  intros Hk Hne Hr. destruct row as [|c row]; [done|].
  unfold row_cells in Hr.
  destruct k as [|[|[|[|k]]]]; try lia;
    cbn [read_rows length Nat.eqb]; unfold float_cells; mrun;
    cbn in Hr; rewrite Hr; done.
Qed.

Lemma read_rows_table k rows m rest acc self :
  1 ≤ k ≤ 3 →
  Forall (.≠ []) rows → mapM row_cells rows = Some m →
  read_rows (rows ++ rest) k acc self = read_rows rest k (acc_add k acc m) self.
Proof.
  intros Hk Hne Hm%mapM_Some_1. revert acc Hne.
  induction Hm as [|row r rows m Hrow _ IH]; intros acc Hne.
  - by rewrite acc_add_nil.
  - apply Forall_cons_1 in Hne as [Hne1 Hne].
    cbn [app]. rewrite (read_rows_table_row k row r) by done.
    rewrite IH by done. by rewrite acc_add_app.
Qed.


(** Whatever follows a fourth divider is skipped. *)
Lemma read_rows_ignored k rows acc self :
  4 ≤ k → read_rows rows k acc self = (Ok acc, self).
Proof.
  revert k. induction rows as [|row rows IH]; intros k Hk; [done|].
  destruct row as [|c row].
  - rewrite read_rows_divider. apply IH. lia.
  - do 4 (destruct k as [|k]; [lia|]).
    cbn [read_rows length Nat.eqb]. mrun. apply IH. lia.
Qed.

(** Reading rows assigns to the two mappings and to nothing else. *)
Lemma read_rows_frame rows k acc :
  preserves same_tables (read_rows rows k acc).
Proof.
  revert k acc. induction rows as [|row rows IH]; intros k acc.
  - cbn [read_rows]. repeat frame_step.
  - cbn [read_rows]. destruct (length row =? 0); [apply IH|].
    unfold float_cells.
    repeat first [ apply IH | frame_step | done ].
Qed.

Lemma read_rows_counter rows k acc :
  preserves same_counter (read_rows rows k acc).
Proof. intros self. by destruct (read_rows_frame rows k acc self) as (_&_&_&?). Qed.

Lemma load_from_csv_frame_counter file :
  preserves same_counter (load_from_csv file).
Proof.
  unfold load_from_csv, rebuild_tables.
  repeat first [ frame_step | apply read_rows_counter | by hnf ].
Qed.

(** Past the first divider no row assigns to the mappings. *)
Lemma read_rows_keeps_index rows k acc :
  1 ≤ k → preserves same_index (read_rows rows k acc).
Proof.
  revert k acc. induction rows as [|row rows IH]; intros k acc Hk.
  - cbn [read_rows]. repeat frame_step.
  - cbn [read_rows]. destruct (length row =? 0); [apply IH; lia|].
    destruct k as [|k]; [lia|]. cbn [Nat.eqb]. unfold float_cells.
    repeat first [ apply IH; lia | frame_step | by hnf ].
Qed.

Lemma rebuild_tables_keeps_index acc : preserves same_index (rebuild_tables acc).
Proof. unfold rebuild_tables. repeat first [ frame_step | by hnf ]. Qed.

Lemma load_from_csv_run rows self :
  load_from_csv (Some rows) self =
  (read_rows rows 0
     {| wins_rows := []; total_games_rows := []; winrates_rows := [] |}
   ≫= rebuild_tables) (clear_index self).
Proof. reflexivity. Qed.

Lemma foldl_add_entry_tables d self : same_tables self (foldl add_entry self d).
Proof.
  revert self. induction d as [|e d IH]; intros self; [done|].
  cbn [foldl]. etrans; [|apply IH]. done.
Qed.

(** A file with its four sections in place and every cell a number is
    read to the end. *)
Lemma read_rows_sections idx d w mw t mt r mr rest self :
  mapM index_entry idx = Some d →
  Forall (.≠ []) w → Forall (.≠ []) t → Forall (.≠ []) r →
  mapM row_cells w = Some mw → mapM row_cells t = Some mt →
  mapM row_cells r = Some mr →
  rest = [] ∨ (∃ rest', rest = [] :: rest') →
  read_rows (idx ++ [] :: w ++ [] :: t ++ [] :: r ++ rest) 0
    {| wins_rows := []; total_games_rows := []; winrates_rows := [] |} self
  = (Ok {| wins_rows := mw; total_games_rows := mt; winrates_rows := mr |},
     foldl add_entry self d).
Proof.
  intros Hd Hw Ht Hr Hmw Hmt Hmr Hrest.
  rewrite (read_rows_index idx d) by done.
  rewrite read_rows_divider. cbn [Nat.add].
  rewrite (read_rows_table 1 w mw) by (done || lia).
  rewrite read_rows_divider. cbn [Nat.add].
  rewrite (read_rows_table 2 t mt) by (done || lia).
  rewrite read_rows_divider. cbn [Nat.add].
  rewrite (read_rows_table 3 r mr) by (done || lia).
  cbn [acc_add wins_rows total_games_rows winrates_rows app].
  destruct Hrest as [->|[rest' ->]]; [done|].
  rewrite read_rows_divider. by rewrite read_rows_ignored by (cbn; lia).
Qed.





(** An index row whose second field is not a number stops the load with
    ValueError. *)
Lemma load_from_csv_rejects_index_field idx d name field more rest self :
  mapM index_entry idx = Some d → py_int field = None →
  (load_from_csv (Some (idx ++ (name :: field :: more) :: rest)) self).1
    = Raise ValueError.
Proof.
  intros Hd Hfield. rewrite load_from_csv_run. unfold mbind at 1, M_bind at 1.
  rewrite (read_rows_index idx d) by done.
  cbn [read_rows length Nat.eqb lookup list_lookup]. mrun. by rewrite Hfield.
Qed.
End load_facts.


(** ** save_to_csv, then load_from_csv *)

Section roundtrip_facts.
Context {F : Type} `{FloatText F}.

Lemma index_entry_written (d : list (string * Z)) :
  mapM index_entry ((λ '(key, value), [key; py_str value]) <$> d) = Some d.
Proof.
  apply mapM_fmap_Some. intros [key value]. unfold index_entry. cbn.
  by rewrite py_int_str.
Qed.

Lemma table_records_nonempty (a : ndarray F) : Forall (.≠ []) (table_records a).
Proof.
  unfold table_records. apply list.Forall_forall. intros x [i Hi]%list_elem_of_lookup.
  rewrite list_lookup_imap in Hi. by destruct (nd_rows a !! i); simplify_eq/=.
Qed.

Lemma row_cells_written (g : nat → string) (rows : list (list F)) :
  Forall (Forall (λ x, py_float (float_str x) = Some x)) rows →
  mapM row_cells (imap (λ i row, g i :: (float_str <$> row)) rows) = Some rows.
Proof.
  intros Hrows. apply mapM_Some_2. revert g.
  induction Hrows as [|row rows Hrow _ IH]; intros g; cbn [imap]; constructor.
  - unfold row_cells. cbn. by apply mapM_fmap_Forall_Some.
  - apply (IH (g ∘ S)).
Qed.

Lemma table_records_cells (a : ndarray F) :
  text_exact a → mapM row_cells (table_records a) = Some (nd_rows a).
Proof. apply row_cells_written. Qed.

Lemma np_array_nd_rows (a : ndarray F) :
  nd_wf a → has_rows a → np_array (nd_rows a) = Some a.
Proof.
  destruct a as [|ncols rows]; [done|]. cbn. intros Hwf Hrows.
  destruct rows as [|r rs]; [done|].
  apply Forall_cons_1 in Hwf as [<- Hwf]. cbn [np_array].
  rewrite (proj2 (forallb_forall _ _)); [done|].
  intros x Hx%list_elem_of_In. apply Nat.eqb_eq.
  rewrite list.Forall_forall in Hwf. auto.
Qed.

(** The index rows of a bijective index, assigned one after the other,
    rebuild both mappings. *)
Lemma foldl_add_entry_index (d pre : list (string * Z)) (self : MatchupTable F) :
  card_name_to_index self = pre →
  index_to_card_name self = prod_swap <$> pre →
  NoDup (pre ++ d).*1 → NoDup (pre ++ d).*2 →
  card_name_to_index (foldl add_entry self d) = pre ++ d ∧
  index_to_card_name (foldl add_entry self d) = prod_swap <$> (pre ++ d).
Proof.
  revert pre self. induction d as [|[key value] d IH]; intros pre self Hn Hi Hk Hv.
  - by rewrite app_nil_r.
  - cbn [foldl].
    replace (pre ++ (key, value) :: d) with ((pre ++ [(key, value)]) ++ d) in *
      by (by rewrite <- app_assoc).
    apply IH; [| |done..].
    + cbn. rewrite Hn. apply dict_set_fresh.
      rewrite !fmap_app in Hk. apply list.NoDup_app in Hk as [Hk _].
      apply list.NoDup_app in Hk as (_ & Hk & _). intros Hin.
      apply (Hk _ Hin). cbn. left.
    + cbn. rewrite Hi, fmap_app. cbn. apply dict_set_fresh.
      rewrite !fmap_app in Hv. apply list.NoDup_app in Hv as [Hv _].
      apply list.NoDup_app in Hv as (_ & Hv & _). intros Hin.
      apply list_elem_of_fmap in Hin as ([v k] & Hfst & Hin).
      apply list_elem_of_fmap in Hin as ([k' v'] & Hswap & Hin).
      cbn in Hfst, Hswap. simplify_eq.
      apply (Hv v'); [|cbn; left].
      apply list_elem_of_fmap. by exists (k', v').
Qed.
End roundtrip_facts.

(** ** Exact arithmetic *)

Section exact_facts.
Local Open Scope Q_scope.


End exact_facts.

(** * The claims *)

(** C1 (amended): for every MatchupTable state whose three tables have at
    least one row, whose index is a bijection held in both directions, and
    whose cells are read back from their text as the same value, saving
    with [save_to_csv] and loading the file written into any instance gives
    back both mappings and the three tables exactly, shapes included; only
    the counter of the loading instance stays its own. *)
Theorem save_load_roundtrip {F : Type} `{FloatText F}
    (self other : MatchupTable F) (wins total winrates : ndarray F) :
  wins_table self = Some wins →
  total_games_table self = Some total →
  winrates_table self = Some winrates →
  nd_wf wins → nd_wf total → nd_wf winrates →
  has_rows wins → has_rows total → has_rows winrates →
  text_exact wins → text_exact total → text_exact winrates →
  index_bijective self →
  ∃ file,
    save_to_csv self = (Ok file, self) ∧
    load_from_csv (Some file) other
      = (Ok tt, set_gamesProcessed self (gamesProcessed other)).
Proof.
  intros Hw Ht Hr Hwf1 Hwf2 Hwf3 Hrow1 Hrow2 Hrow3 Hx1 Hx2 Hx3 (Hk & Hv & Hinv).
  eexists. split.
  { unfold save_to_csv. mrun. rewrite Hw, Ht, Hr.
    rewrite bool_decide_false by (by intros [?|?]). reflexivity. }
  rewrite load_from_csv_run. unfold mbind, M_bind.
  pose proof (read_rows_sections
    ((λ '(key, value), [key; py_str value]) <$> card_name_to_index self)
    (card_name_to_index self)
    (table_records wins) (nd_rows wins) (table_records total) (nd_rows total)
    (table_records winrates) (nd_rows winrates) [] (clear_index other)
    (index_entry_written _)
    (table_records_nonempty _) (table_records_nonempty _)
    (table_records_nonempty _)
    (table_records_cells _ Hx1) (table_records_cells _ Hx2)
    (table_records_cells _ Hx3) (or_introl eq_refl)) as Hread.
  rewrite app_nil_r in Hread. cbn [app]. rewrite Hread. clear Hread.
  destruct (foldl_add_entry_index (card_name_to_index self) [] (clear_index other))
    as [Hn Hi]; [done..|].
  destruct (foldl_add_entry_tables (card_name_to_index self) (clear_index other))
    as (_ & _ & _ & Hg).
  unfold rebuild_tables. mrun.
  rewrite !np_array_nd_rows by done. cbn.
  f_equal. destruct self. unfold set_wins_table, set_total_games_table,
    set_winrates_table, set_gamesProcessed. cbn in *.
  rewrite Hn, Hi, Hg. by subst.
Qed.

(** C1, an instance: three cards, the tables after one game, loaded into a
    fresh instance. *)
Lemma save_load_roundtrip_witness :
  let wins : ndarray Z := Nd2 3 [[0; 0; 1]; [0; 0; 1]; [0; 0; 0]]%Z in
  let total : ndarray Z := Nd2 3 [[0; 0; 1]; [0; 0; 1]; [1; 1; 0]]%Z in
  let winrates : ndarray Z := Nd2 3 [[0; 0; 0]; [0; 0; 0]; [0; 0; 0]]%Z in
  let self : MatchupTable Z :=
    {| wins_table := Some wins; total_games_table := Some total;
       winrates_table := Some winrates;
       card_name_to_index :=
         [("knight"%string, 0%Z); ("archer"%string, 1%Z); ("wizard"%string, 2%Z)];
       index_to_card_name :=
         [(0%Z, "knight"%string); (1%Z, "archer"%string); (2%Z, "wizard"%string)];
       gamesProcessed := 1 |} in
  ∃ file,
    save_to_csv self = (Ok file, self) ∧
    load_from_csv (Some file) new_instance
      = (Ok tt, set_gamesProcessed self (gamesProcessed (new_instance (F:=Z)))).
Proof.
  intros wins total winrates self.
  apply (save_load_roundtrip self new_instance wins total winrates).
  1-3: reflexivity.
  1-3: cbn; repeat constructor.
  1-3: discriminate.
  1-3: repeat constructor; apply whole_text_roundtrip.
  split; [|split]; [apply (bool_decide_unpack _); by vm_compute..|reflexivity].
Defined.

(** C1, the claim as stated fails: the state [__init_tables] builds from an
    empty catalog has tables of shape (0, 0); the file saved from it has no
    table row, and loading it gives tables of shape (0,). *)
Lemma save_load_empty_catalog_shape :
  let self : MatchupTable Z :=
    {| wins_table := Some (Nd2 0 []); total_games_table := Some (Nd2 0 []);
       winrates_table := Some (Nd2 0 []);
       card_name_to_index := []; index_to_card_name := [];
       gamesProcessed := 0 |} in
  ∃ file after,
    save_to_csv self = (Ok file, self) ∧
    load_from_csv (Some file) new_instance = (Ok tt, after) ∧
    shape <$> wins_table self = Some [0; 0] ∧
    shape <$> wins_table after = Some [0] ∧
    wins_table after ≠ wins_table self.
Proof.
  eexists _, _. vm_compute. repeat split; try reflexivity. discriminate.
Qed.

(** C2 (amended): on the state of an instance over a catalog, a game that
    is not a draw and whose two decks both resolve to a non-empty index set
    is processed without an exception and counted once.  Every wins cell
    (i, j) with i among the winner's indices and j among the loser's is
    increased by 1.0, and no other wins cell changes.  Every total-games
    cell (i, j) is increased by 1.0 once if (i, j) lies in team x opponent
    and once more if it lies in opponent x team, and changes in no other
    case: by exactly 1.0 when the decks share no card. *)
Theorem process_game_cells {F : Type} `{FloatArith F} (n : nat)
    (self : MatchupTable F) (g : GameInfo) (wins total : ndarray F) :
  catalog_state n self →
  wins_table self = Some wins → total_games_table self = Some total →
  winner g ≠ DRAW →
  resolve self (team_deck g) ≠ [] → resolve self (opponent_deck g) ≠ [] →
  let team_idx := resolve self (team_deck g) in
  let opp_idx := resolve self (opponent_deck g) in
  ∃ wins' total',
    process_game g self
      = (Ok tt,
         set_gamesProcessed
           (set_total_games_table (set_wins_table self (Some wins')) (Some total'))
           (gamesProcessed self + 1)%Z) ∧
    (∀ i j, cell wins' i j
            = bump (credited (winner g) team_idx opp_idx i j) <$> cell wins i j) ∧
    (∀ i j, cell total' i j
            = bump (in_ix opp_idx team_idx i j)
                <$> (bump (in_ix team_idx opp_idx i j) <$> cell total i j)) ∧
    ((∀ z, z ∈ team_idx → z ∉ opp_idx) →
     ∀ i j, cell total' i j
            = bump (in_ix team_idx opp_idx i j || in_ix opp_idx team_idx i j)
                <$> cell total i j).
Proof.
  intros Hcat Hw Ht Hdraw Hteam Hopp team_idx opp_idx.
  rewrite (process_game_run n) by done.
  rewrite bool_decide_false by (by intros [?|[?|?]]).
  unfold counted. rewrite Hw, Ht. cbn [fmap option_fmap option_map].
  eexists _, _. split; [reflexivity|].
  assert (∀ i j,
    cell (nd_imap (λ i j, bump (in_ix opp_idx team_idx i j))
            (nd_imap (λ i j, bump (in_ix team_idx opp_idx i j)) total)) i j
    = bump (in_ix opp_idx team_idx i j)
        <$> (bump (in_ix team_idx opp_idx i j) <$> cell total i j)) as Htotal.
  { intros i j. by rewrite !cell_nd_imap. }
  split; [|split].
  - intros i j. by rewrite cell_nd_imap.
  - exact Htotal.
  - intros Hdisj i j. rewrite Htotal.
    destruct (cell total i j) as [x|]; [|done]. cbn. f_equal.
    destruct (in_ix team_idx opp_idx i j) eqn:H1,
             (in_ix opp_idx team_idx i j) eqn:H2; try done.
    exfalso. unfold in_ix in H1, H2.
    apply bool_decide_eq_true in H1 as [Hi _].
    apply bool_decide_eq_true in H2 as [Hi' _]. by apply (Hdisj _ Hi).
Qed.

(** C2, an instance: the three-card catalog, "knight" and "archer" beating
    "wizard". *)
Lemma process_game_cells_witness :
  let self : MatchupTable float := (__init__ 200 ["knight"; "archer"; "wizard"]%string []).2 in
  let g := {| winner := TEAM; team_crowns := 1; opponent_crowns := 0;
              team_deck := {| cards := ["knight"]%string;
                              supportCards := ["archer"]%string |};
              opponent_deck := {| cards := ["wizard"]%string;
                                  supportCards := [] |} |} in
  let team_idx := resolve self (team_deck g) in
  let opp_idx := resolve self (opponent_deck g) in
  ∃ wins' total',
    process_game g self
      = (Ok tt,
         set_gamesProcessed
           (set_total_games_table (set_wins_table self (Some wins')) (Some total'))
           (gamesProcessed self + 1)%Z) ∧
    (∀ i j, cell wins' i j
            = bump (credited (winner g) team_idx opp_idx i j)
                <$> cell (np_zeros 3 3) i j) ∧
    (∀ i j, cell total' i j
            = bump (in_ix opp_idx team_idx i j)
                <$> (bump (in_ix team_idx opp_idx i j) <$> cell (np_zeros 3 3) i j)) ∧
    ((∀ z, z ∈ team_idx → z ∉ opp_idx) →
     ∀ i j, cell total' i j
            = bump (in_ix team_idx opp_idx i j || in_ix opp_idx team_idx i j)
                <$> cell (np_zeros 3 3) i j).
Proof.
  intros self g.
  apply (process_game_cells 3 self g (np_zeros 3 3) (np_zeros 3 3)).
  - destruct (init_run (F:=float) ["knight"; "archer"; "wizard"]%string [])
      as (s & Hs & Hcat & _); [by vm_compute|].
    unfold self. by rewrite Hs.
  - reflexivity.
  - reflexivity.
  - discriminate.
  - by vm_compute.
  - by vm_compute.
Defined.

(** C2, the claim as stated fails: when both decks hold "knight", the
    total-games cell (0, 0) goes from 0 to 2, not to 1. *)
Lemma process_game_mirror_counts_twice :
  let self : MatchupTable float := (__init__ 200 ["knight"; "archer"]%string []).2 in
  let g := {| winner := TEAM; team_crowns := 1; opponent_crowns := 0;
              team_deck := {| cards := ["knight"]%string; supportCards := [] |};
              opponent_deck := {| cards := ["knight"]%string; supportCards := [] |} |} in
  let after := process_game g self in
  after.1 = Ok tt ∧
  (total_games_table self ≫= λ a, cell a 0 0) = Some 0%float ∧
  (total_games_table after.2 ≫= λ a, cell a 0 0) = Some 2%float ∧
  PrimFloat.eqb 2%float (f_add 0%float f_one) = false.
Proof. vm_compute. repeat split; reflexivity. Qed.

(** C3: on three tables of one shape, [calculate_winrates] returns and
    sets every cell (i, j) of the winrates table to
    [(wins[i][j] + s) / (total[i][j] + 2 * s)] with [s = 1.0], computed in
    double arithmetic from the two cells at (i, j) and from nothing else,
    and leaves the rest of the instance as it was; where [total[i][j]] and
    [wins[i][j]] are 0, the derived cell is exactly 0.5. *)
Theorem calculate_winrates_formula (self : MatchupTable float) (n m : nat)
    (wins total winrates : ndarray float) :
  wins_table self = Some wins →
  total_games_table self = Some total →
  winrates_table self = Some winrates →
  rectangular n m wins → rectangular n m total → rectangular n m winrates →
  ∃ winrates',
    calculate_winrates self = (Ok tt, set_winrates_table self (Some winrates')) ∧
    rectangular n m winrates' ∧
    ∀ i j w t, cell wins i j = Some w → cell total i j = Some t →
      cell winrates' i j = Some ((w + 1) / (t + 2 * 1))%float ∧
      (t = 0%float → w = 0%float → cell winrates' i j = Some 0.5%float).
Proof.
  intros Hw Ht Hr Hws Hts Hrs.
  destruct (calculate_winrates_run self n m wins total Hw Ht Hws Hts winrates Hr Hrs)
    as (winrates' & Hrun & Hshape & Hcells).
  exists winrates'. repeat split; [done..| |].
  - by apply Hcells.
  - intros -> ->. by rewrite (Hcells i j 0%float 0%float).
Qed.

(** C3, an instance: the three-card catalog after one game. *)
Lemma calculate_winrates_formula_witness :
  let wins : ndarray float := Nd2 3 [[0; 0; 1]; [0; 0; 1]; [0; 0; 0]]%float in
  let total : ndarray float := Nd2 3 [[0; 0; 1]; [0; 0; 1]; [1; 1; 0]]%float in
  let self : MatchupTable float :=
    set_winrates_table
      (set_total_games_table (set_wins_table new_instance (Some wins)) (Some total))
      (Some (np_zeros 3 3)) in
  ∃ winrates',
    calculate_winrates self = (Ok tt, set_winrates_table self (Some winrates')) ∧
    rectangular 3 3 winrates' ∧
    ∀ i j w t, cell wins i j = Some w → cell total i j = Some t →
      cell winrates' i j = Some ((w + 1) / (t + 2 * 1))%float ∧
      (t = 0%float → w = 0%float → cell winrates' i j = Some 0.5%float).
Proof.
  intros wins total self.
  apply (calculate_winrates_formula self 3 3 wins total (np_zeros 3 3));
    try reflexivity; (eexists; split; [reflexivity|]; split; [reflexivity|]);
    repeat constructor.
Defined.

(** C4: from the all-zero tables [__init__] builds over any catalog, every
    sequence of [process_game] calls returns and leaves the total-games
    table symmetric. *)
Theorem total_games_symmetric {F : Type} `{FloatArith F}
    (items supportItems : list string) (games : list GameInfo) :
  (Z.of_nat (length (items ++ supportItems)) ≤ 2147483648)%Z →
  ∃ self total,
    (__init_tables 200 items supportItems ;; process_games games) new_instance
      = (Ok tt, self) ∧
    total_games_table self = Some total ∧
    symmetric total.
Proof.
  intros Hn. destruct (init_run items supportItems Hn)
    as (s0 & Hs0 & Hcat & _ & Ht & _).
  unfold mbind, M_bind. unfold __init__ in Hs0. rewrite Hs0.
  destruct (process_games_invariant (length (items ++ supportItems))
              (λ s, ∃ t, total_games_table s = Some t ∧ symmetric t) games s0)
    as (self & Hrun & _ & total & Htotal & Hsym); [|done| |by eauto].
  - intros s g Hs (t & Hst & Hsym). rewrite (process_game_run _ s g Hs). cbn.
    case_bool_decide; [by eauto|]. by eapply counted_symmetric.
  - eexists. split; [done|]. apply np_zeros_symmetric.
Qed.

(** C4, an instance: the three-card catalog and two games. *)
Lemma total_games_symmetric_witness :
  let g w : GameInfo :=
    {| winner := w; team_crowns := 1; opponent_crowns := 0;
       team_deck := {| cards := ["knight"; "wizard"]%string; supportCards := [] |};
       opponent_deck := {| cards := ["wizard"]%string;
                           supportCards := ["archer"]%string |} |} in
  ∃ (self : MatchupTable float) total,
    (__init_tables 200 ["knight"; "archer"]%string ["wizard"]%string ;;
     process_games [g TEAM; g OPPONENT]) new_instance = (Ok tt, self) ∧
    total_games_table self = Some total ∧
    symmetric total.
Proof.
  intros g.
  apply (total_games_symmetric ["knight"; "archer"]%string ["wizard"]%string
           [g TEAM; g OPPONENT]).
  by vm_compute.
Defined.

(** C5: a draw, and a game one of whose decks resolves to the empty index
    set, leave the instance as it is: both tables and the counter.  And
    whenever a call of [process_game] changes [gamesProcessed], whether it
    returns or raises, the game is not a draw, both decks resolve to a
    non-empty set, the call returned, and the counter went up by exactly
    one. *)
Theorem process_game_skips {F : Type} `{FloatArith F}
    (self : MatchupTable F) (g : GameInfo) :
  (winner g = DRAW → process_game g self = (Ok tt, self)) ∧
  (∀ team_idx opp_idx,
     _indices_for_deck (team_deck g) self = (Ok team_idx, self) →
     _indices_for_deck (opponent_deck g) self = (Ok opp_idx, self) →
     team_idx = [] ∨ opp_idx = [] →
     process_game g self = (Ok tt, self)) ∧
  (gamesProcessed (process_game g self).2 ≠ gamesProcessed self →
   winner g ≠ DRAW ∧
   (∃ team_idx opp_idx,
      _indices_for_deck (team_deck g) self = (Ok team_idx, self) ∧
      _indices_for_deck (opponent_deck g) self = (Ok opp_idx, self) ∧
      team_idx ≠ [] ∧ opp_idx ≠ []) ∧
   (process_game g self).1 = Ok tt ∧
   gamesProcessed (process_game g self).2 = (gamesProcessed self + 1)%Z).
Proof.
  split; [|split].
  - intros Hdraw. unfold process_game. mrun. case_bool_decide; [done|].
    by rewrite decide_True.
  - intros team_idx opp_idx Hteam Hopp Hempty.
    unfold process_game. unfold mbind at 1, M_bind at 1, get at 1.
    case_bool_decide; [done|]. destruct (decide _); [done|].
    unfold mbind at 1, M_bind at 1. rewrite Hteam.
    unfold mbind at 1, M_bind at 1. rewrite Hopp.
    destruct Hempty as [-> | ->]; [done|]. by destruct team_idx.
  - rewrite process_game_eq.
    case_bool_decide; [done|]. destruct (decide _) as [|Hdraw]; [done|].
    pose proof (indices_for_deck_state self (team_deck g)) as Hs1.
    destruct (_indices_for_deck (team_deck g) self) as [[team_idx|e] s1];
      cbn in Hs1; subst s1; [|done].
    pose proof (indices_for_deck_state self (opponent_deck g)) as Hs2.
    destruct (_indices_for_deck (opponent_deck g) self) as [[opp_idx|e] s2];
      cbn in Hs2; subst s2; [|done].
    destruct team_idx as [|t0 team_idx]; [done|].
    destruct opp_idx as [|o0 opp_idx]; [done|].
    cbn [length Nat.eqb orb]. intros Hchanged.
    split; [done|]. split; [by eexists _, _|].
    by destruct (count_game_counts_once (winner g) (t0 :: team_idx)
                   (o0 :: opp_idx) self) as [?|?].
Qed.

(** C5, an instance: on the three-card catalog, a draw, a game against a
    deck of unknown cards, and a game that counts. *)
Lemma process_game_skips_witness :
  let self : MatchupTable float :=
    (__init__ 200 ["knight"; "archer"; "wizard"]%string []).2 in
  let g w deck : GameInfo :=
    {| winner := w; team_crowns := 1; opponent_crowns := 1;
       team_deck := {| cards := ["knight"]%string; supportCards := [] |};
       opponent_deck := {| cards := deck; supportCards := [] |} |} in
  process_game (g DRAW ["wizard"]%string) self = (Ok tt, self) ∧
  process_game (g TEAM ["ghost"]%string) self = (Ok tt, self) ∧
  (process_game (g TEAM ["wizard"]%string) self).1 = Ok tt ∧
  gamesProcessed (process_game (g TEAM ["wizard"]%string) self).2 = 1%Z.
Proof.
  intros self g. split; [|split].
  - apply (proj1 (process_game_skips self (g DRAW ["wizard"]%string))).
    reflexivity.
  - apply (proj1 (proj2 (process_game_skips self (g TEAM ["ghost"]%string)))
             [0%Z] []); [reflexivity..|by right].
  - destruct (proj2 (proj2 (process_game_skips self (g TEAM ["wizard"]%string))))
      as (_ & _ & Hok & Hcount); [by vm_compute|].
    split; [exact Hok|exact Hcount].
Defined.




(** C7: for every deck, [_indices_for_deck] returns, without touching the
    instance, the sorted list without repetition of exactly the indices
    that [card_name_to_index] gives to names of the deck's cards and support
    cards; a name the mapping does not have contributes nothing and raises
    nothing, and the result is a function of the mapping and the deck alone.
    (The indices are taken to fit an int32, as every index of a catalog
    does.) *)
Theorem indices_for_deck_spec {F : Type} (self self' : MatchupTable F) (deck : Deck) :
  Forall (λ e, in_int32 e.2) (card_name_to_index self) →
  card_name_to_index self' = card_name_to_index self →
  ∃ idxs,
    _indices_for_deck deck self = (Ok idxs, self) ∧
    _indices_for_deck deck self' = (Ok idxs, self') ∧
    NoDup idxs ∧ Sorted Z.le idxs ∧
    ∀ i, i ∈ idxs ↔
         ∃ name, name ∈ cards deck ++ supportCards deck ∧
                 dict_get (card_name_to_index self) name = Some i.
Proof.
  intros Hint Hsame. exists (resolve self deck).
  rewrite (indices_for_deck_run self) by done.
  rewrite (indices_for_deck_run self') by (by rewrite Hsame).
  assert (resolve self' deck = resolve self deck) as ->
    by (unfold resolve; by rewrite Hsame).
  repeat split; try done.
  - apply np_unique_NoDup.
  - apply np_unique_sorted.
  - by intros ?%resolve_elem.
  - by intros ?%resolve_elem.
Qed.

(** C7, an instance: a deck naming "wizard" twice and a card the index
    does not have. *)
Lemma indices_for_deck_spec_witness :
  let self : MatchupTable Z :=
    set_card_name_to_index new_instance
      [("knight"%string, 0%Z); ("archer"%string, 1%Z); ("wizard"%string, 2%Z)] in
  let deck := {| cards := ["wizard"; "mystery"; "knight"; "wizard"]%string;
                 supportCards := ["archer"]%string |} in
  ∃ idxs,
    _indices_for_deck deck self = (Ok idxs, self) ∧
    _indices_for_deck deck self = (Ok idxs, self) ∧
    NoDup idxs ∧ Sorted Z.le idxs ∧
    ∀ i, i ∈ idxs ↔
         ∃ name, name ∈ cards deck ++ supportCards deck ∧
                 dict_get (card_name_to_index self) name = Some i.
Proof.
  intros self deck. apply (indices_for_deck_spec self self deck).
  - repeat constructor.
  - reflexivity.
Defined.



(** C9 (amended): [load_from_csv] empties both mappings before it reads
    anything, so its outcome never depends on the mappings the instance
    held, and a failed load does not give them back.  With no file the
    call raises and leaves both mappings empty; once the index rows of a
    file have been read, the mappings hold exactly those rows, whether or
    not the rest of the load fails. *)
Theorem load_from_csv_discards_index {F : Type} `{FloatText F}
    (self self' : MatchupTable F) (file : option (list (list string)))
    (idx rest : list (list string)) (d : list (string * Z)) :
  same_tables self self' →
  mapM index_entry idx = Some d →
  load_from_csv None self = (Raise FileNotFoundError, clear_index self) ∧
  load_from_csv file self' = load_from_csv file self ∧
  same_index (foldl add_entry (clear_index self) d)
             (load_from_csv (Some (idx ++ [] :: rest)) self).2.
Proof.
  intros Hsame Hd. split; [done|]. split.
  - destruct self, self'. destruct Hsame as (Hw & Ht & Hr & Hg).
    cbn in Hw, Ht, Hr, Hg. subst. reflexivity.
  - rewrite load_from_csv_run. unfold mbind, M_bind.
    rewrite (read_rows_index idx d) by done. rewrite read_rows_divider.
    apply (preserves_bind same_index
             (read_rows rest (0 + 1) _) rebuild_tables).
    + apply read_rows_keeps_index. lia.
    + apply rebuild_tables_keeps_index.
Qed.

(** C9, an instance: an instance over the one card "archer", the same
    instance with its mappings emptied, and a file with one index row. *)
Lemma load_from_csv_discards_index_witness :
  let self : MatchupTable Z :=
    {| wins_table := Some (Nd2 1 [[0%Z]]); total_games_table := Some (Nd2 1 [[0%Z]]);
       winrates_table := Some (Nd2 1 [[0%Z]]);
       card_name_to_index := [("archer"%string, 0%Z)];
       index_to_card_name := [(0%Z, "archer"%string)];
       gamesProcessed := 0 |} in
  let idx := [["knight"; "0"]]%string in
  let file := Some (idx ++ [[]; []; []; []]) in
  load_from_csv None self = (Raise FileNotFoundError, clear_index self) ∧
  load_from_csv file (clear_index self) = load_from_csv file self ∧
  same_index (foldl add_entry (clear_index self) [("knight"%string, 0%Z)])
             (load_from_csv (Some (idx ++ [] :: [[]; []; []])) self).2.
Proof.
  intros self idx file.
  apply (load_from_csv_discards_index self (clear_index self) file idx
           [[]; []; []] [("knight"%string, 0%Z)]).
  - by vm_compute.
  - reflexivity.
Defined.

(** C9, the claim as stated fails: the load below raises ValueError at the
    cell [abc], and leaves the index row it had read in both mappings. *)
Lemma load_from_csv_failed_not_empty :
  let self : MatchupTable Z :=
    {| wins_table := Some (Nd2 1 [[0%Z]]); total_games_table := Some (Nd2 1 [[0%Z]]);
       winrates_table := Some (Nd2 1 [[0%Z]]);
       card_name_to_index := [("archer"%string, 0%Z)];
       index_to_card_name := [(0%Z, "archer"%string)];
       gamesProcessed := 0 |} in
  let after := load_from_csv (Some [["knight"; "0"]; []; ["0"; "abc"]]%string) self in
  after.1 = Raise ValueError ∧
  card_name_to_index after.2 = [("knight"%string, 0%Z)] ∧
  index_to_card_name after.2 = [(0%Z, "knight"%string)] ∧
  wins_table after.2 = wins_table self ∧
  ¬ (card_name_to_index after.2 = [] ∧ index_to_card_name after.2 = []).
Proof.
  vm_compute. repeat split; try reflexivity. intros [? _]. discriminate.
Qed.

(** C10: [load_from_csv] never assigns [gamesProcessed]: whatever file it
    is given, and whether it returns or raises, the instance keeps the
    counter it had before the call; a fresh instance keeps 0, however many
    games produced the tables it loads. *)
Theorem load_from_csv_keeps_gamesProcessed {F : Type} `{FloatText F}
    (file : option (list (list string))) (self : MatchupTable F) :
  gamesProcessed (load_from_csv file self).2 = gamesProcessed self ∧
  gamesProcessed (load_from_csv file (new_instance (F:=F))).2 = 0%Z.
Proof.
  split; apply (load_from_csv_frame_counter file).
Qed.

(** * Further properties of the methods *)

#[global] Instance same_index_winrates_preorder {F} :
  PreOrder (@same_index_winrates F).
Proof.
  split; [by intros s|].
  intros s1 s2 s3 (?&?&?) (?&?&?). unfold same_index_winrates.
  by repeat split; etrans.
Qed.

(** ** process_game, on any instance *)

Section accumulator_facts.
Context {F : Type} `{FloatArith F}.
Implicit Types (self : MatchupTable F) (g : GameInfo).

Lemma process_game_frame g : preserves same_index_winrates (process_game g).
Proof.
  unfold process_game, _indices_for_deck, wins_iadd, total_iadd.
  repeat first [ frame_step | by hnf ].
Qed.

Lemma process_game_counts_once g : counts_once (process_game g).
Proof.
  intros self. rewrite process_game_eq.
  case_bool_decide; [by right|]. destruct (decide _); [by right|].
  pose proof (indices_for_deck_state self (team_deck g)) as Hs1.
  destruct (_indices_for_deck (team_deck g) self) as [[team_idx|e] s1];
    cbn in Hs1; subst s1; [|by right].
  pose proof (indices_for_deck_state self (opponent_deck g)) as Hs2.
  destruct (_indices_for_deck (opponent_deck g) self) as [[opp_idx|e] s2];
    cbn in Hs2; subst s2; [|by right].
  destruct (_ || _); [by right|]. apply count_game_counts_once.
Qed.

Lemma indices_for_deck_cases self (deck : Deck) :
  (∃ idx, _indices_for_deck deck self = (Ok idx, self)) ∨
  _indices_for_deck deck self = (Raise OverflowError, self).
Proof.
  unfold _indices_for_deck. mrun.
  destruct (np_array_int32 _); [left; by eexists|by right].
Qed.

(** [a[np.ix_(ri, ci)] += 1.0] on an [n] by [n] array: IndexError when
    an index is out of range, the increased array otherwise. *)
Lemma ix_iadd_one_square n (a : ndarray F) (ri ci : list Z) :
  square n a →
  ix_iadd_one a ri ci =
  (ri' ← mapM (norm_index n) ri;
   ci' ← mapM (norm_index n) ci;
   Some (nd_imap (λ i j x,
           if bool_decide (i ∈ ri' ∧ j ∈ ci') then f_add x f_one else x) a)).
Proof. intros (rows & -> & Hlen & Hrows). unfold ix_iadd_one. by rewrite Hlen. Qed.

Lemma tables_square_wins n self a :
  square n a → tables_square n self → tables_square n (set_wins_table self (Some a)).
Proof. intros Ha (_ & Ht & Hr). split; [by exists a|done]. Qed.

Lemma tables_square_total n self a :
  square n a → tables_square n self →
  tables_square n (set_total_games_table self (Some a)).
Proof. intros Ha (Hw & _ & Hr). split; [done|]. split; [by exists a|done]. Qed.

(** The four updates at the end of [process_game], on [n] by [n] tables:
    all of them are made, or the first one raises. *)
Lemma count_game_atomic n w team_idx opp_idx self :
  tables_square n self →
  (∃ s', count_game w team_idx opp_idx self = (Ok tt, s') ∧ tables_square n s') ∨
  count_game w team_idx opp_idx self = (Raise IndexError, self).
Proof.
  intros Hsq. pose proof Hsq as ((w0 & Hw & Hsw) & (t0 & Ht & Hst) & Hr).
  unfold count_game, wins_iadd, total_iadd.
  destruct (mapM (norm_index n) team_idx) as [T|] eqn:HT;
    destruct (mapM (norm_index n) opp_idx) as [O|] eqn:HO.
  - left. destruct w;
      repeat first [ rewrite Hw | rewrite Ht
                   | rewrite (ix_iadd_one_square n) by eauto using square_nd_imap
                   | rewrite HT | rewrite HO | progress mrun ];
      (eexists; split; [reflexivity|]);
      destruct Hr as (r0 & Hr & Hsr);
      (split; [|split]); cbn; eauto;
      (eexists; split; [reflexivity|]);
      repeat apply (square_nd_imap n); assumption.
  - right. destruct w;
      repeat first [ rewrite Hw | rewrite Ht
                   | rewrite (ix_iadd_one_square n) by eauto using square_nd_imap
                   | rewrite HT | rewrite HO | progress mrun ];
      reflexivity.
  - right. destruct w;
      repeat first [ rewrite Hw | rewrite Ht
                   | rewrite (ix_iadd_one_square n) by eauto using square_nd_imap
                   | rewrite HT | rewrite HO | progress mrun ];
      reflexivity.
  - right. destruct w;
      repeat first [ rewrite Hw | rewrite Ht
                   | rewrite (ix_iadd_one_square n) by eauto using square_nd_imap
                   | rewrite HT | rewrite HO | progress mrun ];
      reflexivity.
Qed.

(** [process_game] on [n] by [n] tables: it returns, or raises with the
    instance as it was. *)
Lemma process_game_outcome n self g :
  tables_square n self →
  (∃ s', process_game g self = (Ok tt, s') ∧ tables_square n s') ∨
  (∃ e, process_game g self = (Raise e, self) ∧
        (e = OverflowError ∨ e = IndexError)).
Proof.
  intros Hsq. rewrite process_game_eq.
  case_bool_decide; [left; by exists self|].
  destruct (decide _); [left; by exists self|].
  destruct (indices_for_deck_cases self (team_deck g)) as [[team_idx ->]| ->];
    [|right; exists OverflowError; auto].
  destruct (indices_for_deck_cases self (opponent_deck g)) as [[opp_idx ->]| ->];
    [|right; exists OverflowError; auto].
  destruct (_ || _); [left; by exists self|].
  destruct (count_game_atomic n (winner g) team_idx opp_idx self Hsq)
    as [?|Hraise]; [by left|].
  right. exists IndexError. auto.
Qed.
End accumulator_facts.

Section array_map_facts.
Context {F : Type}.

Lemma nd_imap_nd_imap (f g : nat → nat → F → F) (a : ndarray F) :
  nd_imap f (nd_imap g a) = nd_imap (λ i j x, f i j (g i j x)) a.
Proof.
  destruct a as [|ncols rows]; [done|]. cbn. f_equal.
  apply list_eq. intros i. rewrite !list_lookup_imap.
  destruct (rows !! i) as [row|]; [|done]. cbn. f_equal.
  apply list_eq. intros j. rewrite !list_lookup_imap.
  by destruct (row !! j).
Qed.

Lemma nd_imap_ext (f g : nat → nat → F → F) (a : ndarray F) :
  (∀ i j x, f i j x = g i j x) → nd_imap f a = nd_imap g a.
Proof.
  intros Hfg. destruct a as [|ncols rows]; [done|]. cbn. f_equal.
  apply imap_ext. intros i row _. apply imap_ext. intros j x _. apply Hfg.
Qed.

(** Two arrays of one shape with the same cells are the same array. *)
Lemma rectangular_ext n m (a b : ndarray F) :
  rectangular n m a → rectangular n m b →
  (∀ i j, i < n → j < m → cell a i j = cell b i j) → a = b.
Proof.
  intros (A & -> & HlenA & HA) (B & -> & HlenB & HB) Hcells. f_equal.
  apply list_eq. intros i.
  destruct (decide (i < n)) as [Hi|Hi].
  - destruct (lookup_lt_is_Some_2 A i) as [ra Hra]; [lia|].
    destruct (lookup_lt_is_Some_2 B i) as [rb Hrb]; [lia|].
    rewrite Hra, Hrb. f_equal. apply list_eq. intros j.
    pose proof (Forall_lookup_1 _ _ _ _ HA Hra) as Hla.
    pose proof (Forall_lookup_1 _ _ _ _ HB Hrb) as Hlb. cbn in Hla, Hlb.
    destruct (decide (j < m)) as [Hj|Hj].
    + specialize (Hcells i j Hi Hj). cbn in Hcells. by rewrite Hra, Hrb in Hcells.
    + by rewrite !lookup_ge_None_2 by lia.
  - by rewrite !lookup_ge_None_2 by lia.
Qed.
End array_map_facts.

(** X1: a sequence of [process_game] calls, on any instance and whether it
    returns or raises, leaves the winrates table and the two index
    mappings as they were: the derived table is never refreshed by the
    accumulator. *)
Theorem process_games_keeps_index_and_winrates {F : Type} `{FloatArith F}
    (games : list GameInfo) (self : MatchupTable F) :
  let after := (process_games games self).2 in
  winrates_table after = winrates_table self ∧
  card_name_to_index after = card_name_to_index self ∧
  index_to_card_name after = index_to_card_name self.
Proof.
  intros after.
  destruct (preserves_for_each same_index_winrates games process_game
              process_game_frame self) as (Hn & Hi & Hr).
  done.
Qed.

(** X2: over a sequence of [process_game] calls, on any instance and
    whether the sequence returns or raises, [gamesProcessed] never goes
    down and goes up by at most the number of games. *)
Theorem process_games_counter_bounds {F : Type} `{FloatArith F}
    (games : list GameInfo) (self : MatchupTable F) :
  (gamesProcessed self ≤ gamesProcessed (process_games games self).2
     ≤ gamesProcessed self + Z.of_nat (length games))%Z.
Proof.
  revert self. induction games as [|g games IH]; intros self; [cbn; lia|].
  unfold process_games. cbn [for_each]. unfold mbind, M_bind.
  pose proof (process_game_counts_once g self) as Hg.
  destruct (process_game g self) as [[[]|e] s1]; cbn in Hg.
  - specialize (IH s1). unfold process_games in IH.
    rewrite length_cons, Nat2Z.inj_succ. destruct Hg as [[_ Hg]|Hg]; lia.
  - cbn [snd]. rewrite length_cons, Nat2Z.inj_succ.
    destruct Hg as [[Hg _]|Hg]; [done|lia].
Qed.

(** X3: on an instance whose tables are [n] by [n], whatever its index
    holds, [process_game] returns with tables that are still [n] by [n],
    or raises (OverflowError from the int32 array of indices, IndexError
    from the first update) with the instance exactly as it was: no game is
    ever counted in part. *)
Theorem process_game_atomic {F : Type} `{FloatArith F} (n : nat)
    (self : MatchupTable F) (g : GameInfo) :
  tables_square n self →
  (∃ self', process_game g self = (Ok tt, self') ∧ tables_square n self') ∨
  (∃ e, process_game g self = (Raise e, self) ∧
        (e = OverflowError ∨ e = IndexError)).
Proof. apply process_game_outcome. Qed.

(** X3, an instance: a one-card table whose index sends "knight" to 7; the
    game raises IndexError and nothing has changed. *)
Lemma process_game_atomic_witness :
  let self : MatchupTable float :=
    {| wins_table := Some (np_zeros 1 1); total_games_table := Some (np_zeros 1 1);
       winrates_table := Some (np_zeros 1 1);
       card_name_to_index := [("knight"%string, 7%Z)];
       index_to_card_name := [(7%Z, "knight"%string)]; gamesProcessed := 0 |} in
  let g := {| winner := TEAM; team_crowns := 1; opponent_crowns := 0;
              team_deck := {| cards := ["knight"%string]; supportCards := [] |};
              opponent_deck := {| cards := ["knight"%string]; supportCards := [] |} |} in
  tables_square 1 self ∧
  process_game g self = (Raise IndexError, self) ∧
  ((∃ self', process_game g self = (Ok tt, self') ∧ tables_square 1 self') ∨
   (∃ e, process_game g self = (Raise e, self) ∧
         (e = OverflowError ∨ e = IndexError))).
Proof.
  intros self g.
  assert (tables_square 1 self) as Hsq.
  { repeat split; (eexists; split; [reflexivity|]); apply square_np_zeros. }
  split; [exact Hsq|]. split; [vm_compute; reflexivity|].
  apply (process_game_atomic 1 self g Hsq).
Defined.

(** X4: on the state of an instance over a catalog, a game told by the
    other player (decks and crowns exchanged, TEAM for OPPONENT) is
    processed to the same instance: [process_game] does not depend on
    which side is called the team. *)
Theorem process_game_swap_sides {F : Type} `{FloatArith F} (n : nat)
    (self : MatchupTable F) (g : GameInfo) :
  catalog_state n self →
  process_game (swap_sides g) self = process_game g self.
Proof.
  intros Hcat. rewrite !(process_game_run n) by done. f_equal.
  assert ((winner (swap_sides g) = DRAW ∨
           resolve self (team_deck (swap_sides g)) = [] ∨
           resolve self (opponent_deck (swap_sides g)) = []) ↔
          (winner g = DRAW ∨ resolve self (team_deck g) = [] ∨
           resolve self (opponent_deck g) = [])) as Hiff.
  { cbn. destruct (winner g); intuition discriminate. }
  rewrite (bool_decide_ext _ _ Hiff). case_bool_decide; [done|].
  unfold counted. cbn [swap_sides winner team_deck opponent_deck]. f_equal.
  - f_equal. destruct (winner g); reflexivity.
  - destruct (total_games_table self) as [t|]; [|done]. cbn. f_equal.
    rewrite !nd_imap_nd_imap. apply nd_imap_ext. intros i j x. apply bump_comm.
Qed.

(** X4, an instance: the three-card catalog, "knight" beating "wizard". *)
Lemma process_game_swap_sides_witness :
  let g := {| winner := TEAM; team_crowns := 2; opponent_crowns := 1;
              team_deck := {| cards := ["knight"%string];
                              supportCards := ["archer"%string] |};
              opponent_deck := {| cards := ["wizard"%string]; supportCards := [] |} |} in
  let self : MatchupTable float :=
    (__init__ 200 ["Knight"; "Archer"]%string ["Wizard"]%string).2 in
  catalog_state 3 self ∧
  process_game (swap_sides g) self = process_game g self.
Proof.
  intros g self.
  assert (catalog_state 3 self) as Hcat.
  { destruct (init_run (F:=float) ["Knight"; "Archer"]%string ["Wizard"]%string)
      as (s & Hs & Hcat & _); [cbn; lia|].
    unfold self. by rewrite Hs. }
  split; [exact Hcat|]. apply (process_game_swap_sides 3 self g Hcat).
Defined.

(** X5: on three tables of one shape, deriving the winrates a second time
    changes nothing: [calculate_winrates] reads only the two count
    tables. *)
Theorem calculate_winrates_idempotent {F : Type} `{FloatArith F}
    (self : MatchupTable F) (n m : nat) (wins total winrates : ndarray F) :
  wins_table self = Some wins →
  total_games_table self = Some total →
  winrates_table self = Some winrates →
  rectangular n m wins → rectangular n m total → rectangular n m winrates →
  (calculate_winrates ;; calculate_winrates) self = calculate_winrates self.
Proof.
  intros Hw Ht Hr Hws Hts Hrs.
  destruct (calculate_winrates_run self n m wins total Hw Ht Hws Hts winrates Hr Hrs)
    as (r1 & Hrun1 & Hs1 & Hc1).
  unfold mbind, M_bind. rewrite Hrun1.
  destruct (calculate_winrates_run (set_winrates_table self (Some r1)) n m wins total
              Hw Ht Hws Hts r1 eq_refl Hs1) as (r2 & Hrun2 & Hs2 & Hc2).
  rewrite Hrun2. f_equal. unfold set_winrates_table. cbn. f_equal. f_equal.
  apply (rectangular_ext n m); [done..|]. intros i j Hi Hj.
  destruct (rectangular_cell n m wins i j Hws Hi Hj) as [w Hwc].
  destruct (rectangular_cell n m total i j Hts Hi Hj) as [t Htc].
  by rewrite (Hc1 i j w t), (Hc2 i j w t).
Qed.

(** X5, an instance: the three-card catalog after one game, in double
    arithmetic. *)
Lemma calculate_winrates_idempotent_witness :
  let wins : ndarray float := Nd2 3 [[0; 0; 1]; [0; 0; 1]; [0; 0; 0]]%float in
  let total : ndarray float := Nd2 3 [[0; 0; 1]; [0; 0; 1]; [1; 1; 0]]%float in
  let self : MatchupTable float :=
    set_winrates_table
      (set_total_games_table (set_wins_table new_instance (Some wins)) (Some total))
      (Some (np_zeros 3 3)) in
  (calculate_winrates ;; calculate_winrates) self = calculate_winrates self.
Proof.
  intros wins total self.
  apply (calculate_winrates_idempotent self 3 3 wins total (np_zeros 3 3));
    try reflexivity; (eexists; split; [reflexivity|]; split; [reflexivity|]);
    repeat constructor.
Defined.

(** ** load_from_csv and save_to_csv, on any file *)

Section file_facts.
Context {F : Type} `{FloatText F}.
Implicit Types (self s : MatchupTable F) (acc : row_lists (F:=F)).

Lemma bind_ext {A B} (m : M F A) (f g : A → M F B) s :
  (∀ a s', f a s' = g a s') → (m ≫= f) s = (m ≫= g) s.
Proof.
  intros Hfg. unfold mbind, M_bind. by destruct (m s) as [[a|e] s'].
Qed.

Lemma dividers_cons_nil rows : dividers ([] :: rows) = S (dividers rows).
Proof. unfold dividers. by rewrite filter_cons_True. Qed.

Lemma dividers_cons_row c row rows : dividers ((c :: row) :: rows) = dividers rows.
Proof. unfold dividers. by rewrite filter_cons_False. Qed.

Lemma dividers_app rows rows' : dividers (rows ++ rows') = dividers rows + dividers rows'.
Proof. unfold dividers. by rewrite list.filter_app, length_app. Qed.

(** Rows after the fourth divider do not change what is read. *)
Lemma read_rows_trailing pre junk k acc s :
  4 ≤ k + dividers pre →
  read_rows (pre ++ junk) k acc s = read_rows pre k acc s.
Proof.
  revert k acc s. induction pre as [|row pre IH]; intros k acc s Hk.
  - cbn in Hk. cbn [app]. rewrite read_rows_ignored by lia. done.
  - destruct row as [|c row].
    + cbn [app]. rewrite !read_rows_divider. apply IH.
      rewrite dividers_cons_nil in Hk. lia.
    + rewrite dividers_cons_row in Hk.
      cbn [app read_rows length Nat.eqb].
      do 4 (apply bind_ext; intros ? ?). by apply IH.
Qed.

(** What follows a prefix is read the same way when it is read the same
    way under every divider count. *)
Lemma read_rows_app_cong pre rows rows' k acc s :
  (∀ k' acc' s', read_rows rows k' acc' s' = read_rows rows' k' acc' s') →
  read_rows (pre ++ rows) k acc s = read_rows (pre ++ rows') k acc s.
Proof.
  intros Hrows. revert k acc s. induction pre as [|row pre IH]; intros k acc s.
  - apply Hrows.
  - destruct row as [|c row].
    + cbn [app]. rewrite !read_rows_divider. apply IH.
    + cbn [app read_rows length Nat.eqb].
      do 4 (apply bind_ext; intros ? ?). apply IH.
Qed.

(** Past the first divider the first field of a record is not read. *)
Lemma read_rows_same_cells rows rows' k acc s :
  1 ≤ k → Forall2 same_cells rows rows' →
  read_rows rows k acc s = read_rows rows' k acc s.
Proof.
  intros Hk Hrows. revert k acc s Hk.
  induction Hrows as [|row row' rows rows' [Hnil Hcells] _ IH]; intros k acc s Hk;
    [done|].
  destruct row as [|c row], row' as [|c' row'].
  - rewrite !read_rows_divider. apply IH. lia.
  - discriminate (proj1 Hnil eq_refl).
  - discriminate (proj2 Hnil eq_refl).
  - destruct k as [|k]; [lia|].
    cbn [read_rows length Nat.eqb]. unfold float_cells. rewrite Hcells.
    do 4 (apply bind_ext; intros ? ?). by apply IH.
Qed.

Lemma np_array_Some (rows : list (list F)) (a : ndarray F) :
  np_array rows = Some a → nd_wf a ∧ has_rows a ∧ nd_rows a = rows.
Proof.
  destruct rows as [|r rs]; cbn; [by intros [= <-]|].
  destruct (forallb _ rs) eqn:Hall; [|done]. intros [= <-]. cbn.
  split; [|done]. constructor; [done|].
  apply list.Forall_forall. intros x Hx%list_elem_of_In.
  rewrite forallb_forall in Hall. by apply Nat.eqb_eq, Hall.
Qed.

Lemma index_records_dividers (d : list (string * Z)) :
  dividers (index_records d) = 0.
Proof.
  induction d as [|[key value] d IH]; [done|].
  change (index_records ((key, value) :: d))
    with ([key; py_str value] :: index_records d).
  by rewrite dividers_cons_row.
Qed.

Lemma table_records_dividers (a : ndarray F) : dividers (table_records a) = 0.
Proof.
  unfold table_records.
  cut (∀ (g : nat → string) rows,
         dividers (imap (λ i (row : list F), g i :: (float_str <$> row)) rows) = 0).
  { intros Hcut. apply Hcut. }
  intros g rows. revert g. induction rows as [|row rows IH]; intros g; [done|].
  cbn [imap]. rewrite dividers_cons_row. apply (IH (g ∘ S)).
Qed.
End file_facts.

(** X6: when [load_from_csv] returns, each of the three tables is set,
    and is either the empty one-dimensional array (its section held no
    row) or a two-dimensional array with at least one row, all rows of one
    length; its rows are exactly the rows read.  A loaded table never has
    shape (0, k). *)
Theorem load_from_csv_tables_well_formed {F : Type} `{FloatText F}
    (file : option (list (list string))) (self self' : MatchupTable F) :
  load_from_csv file self = (Ok tt, self') →
  ∃ wins total winrates,
    wins_table self' = Some wins ∧ total_games_table self' = Some total ∧
    winrates_table self' = Some winrates ∧
    (nd_wf wins ∧ has_rows wins) ∧ (nd_wf total ∧ has_rows total) ∧
    (nd_wf winrates ∧ has_rows winrates).
Proof.
  destruct file as [rows|]; [|done]. rewrite load_from_csv_run.
  unfold mbind at 1, M_bind at 1.
  destruct (read_rows rows 0 _ (clear_index self)) as [[acc|e] s1]; [|done].
  unfold rebuild_tables.
  destruct (np_array (wins_rows acc)) as [a1|] eqn:H1; mrun; [|done].
  destruct (np_array (total_games_rows acc)) as [a2|] eqn:H2; mrun; [|done].
  destruct (np_array (winrates_rows acc)) as [a3|] eqn:H3; mrun; [|done].
  intros [= <-]. exists a1, a2, a3. cbn.
  apply np_array_Some in H1 as (?&?&_), H2 as (?&?&_), H3 as (?&?&_).
  done.
Qed.

(** X6, an instance: a file of one card with a one-cell wins section and
    nothing in the other two sections. *)
Lemma load_from_csv_tables_well_formed_witness :
  let file := [["knight"; "0"]; []; ["0"; "3.0"]; []; []]%string in
  let self : MatchupTable Z := new_instance in
  ∃ self',
    load_from_csv (Some file) self = (Ok tt, self') ∧
    wins_table self' = Some (Nd2 1 [[3%Z]]) ∧
    total_games_table self' = Some Nd1_empty ∧
    ∃ wins total winrates,
      wins_table self' = Some wins ∧ total_games_table self' = Some total ∧
      winrates_table self' = Some winrates ∧
      (nd_wf wins ∧ has_rows wins) ∧ (nd_wf total ∧ has_rows total) ∧
      (nd_wf winrates ∧ has_rows winrates).
Proof.
  intros file self. eexists. split; [vm_compute; reflexivity|].
  split; [reflexivity|]. split; [reflexivity|].
  apply (load_from_csv_tables_well_formed (Some file) self). vm_compute. reflexivity.
Defined.

(** X7: whatever follows the fourth divider of a file does not matter to
    [load_from_csv]: the file with any records added behind it is loaded
    to the same outcome, rows that are not numbers included. *)
Theorem load_from_csv_ignores_past_fourth_divider {F : Type} `{FloatText F}
    (file junk : list (list string)) (self : MatchupTable F) :
  4 ≤ dividers file →
  load_from_csv (Some (file ++ junk)) self = load_from_csv (Some file) self.
Proof.
  intros Hfile. rewrite !load_from_csv_run. unfold mbind, M_bind.
  by rewrite read_rows_trailing by lia.
Qed.

(** X7, an instance: a one-card file closed by a fourth divider, with a
    record of words behind it. *)
Lemma load_from_csv_ignores_past_fourth_divider_witness :
  let file := [["knight"; "0"]; []; ["0"; "3.0"]; []; ["0"; "5.0"]; [];
               ["0"; "0.0"]; []]%string in
  let junk := [["not"; "a"; "number"]; []; ["x"]]%string in
  let self : MatchupTable Z := new_instance in
  4 ≤ dividers file ∧
  (load_from_csv (Some file) self).1 = Ok tt ∧
  load_from_csv (Some (file ++ junk)) self = load_from_csv (Some file) self.
Proof.
  intros file junk self.
  assert (4 ≤ dividers file) as Hfile by (vm_compute; lia).
  split; [exact Hfile|]. split; [vm_compute; reflexivity|].
  apply (load_from_csv_ignores_past_fourth_divider file junk self Hfile).
Defined.

(** X8: behind the first divider, [load_from_csv] never reads the first
    field of a record: two files that differ only there (the row numbers
    [save_to_csv] writes in front of every table row) are loaded to the
    same outcome. *)
Theorem load_from_csv_ignores_row_labels {F : Type} `{FloatText F}
    (index rows rows' : list (list string)) (self : MatchupTable F) :
  Forall2 same_cells rows rows' →
  load_from_csv (Some (index ++ [] :: rows)) self
  = load_from_csv (Some (index ++ [] :: rows')) self.
Proof.
  intros Hrows. rewrite !load_from_csv_run. unfold mbind, M_bind.
  rewrite (read_rows_app_cong index ([] :: rows) ([] :: rows')); [done|].
  intros k acc s. rewrite !read_rows_divider.
  apply read_rows_same_cells; [lia|done].
Qed.

(** X8, an instance: the row numbers of a two-card table replaced by
    words. *)
Lemma load_from_csv_ignores_row_labels_witness :
  let index := [["knight"; "0"]; ["archer"; "1"]]%string in
  let rows := [["0"; "1.0"; "2.0"]; ["1"; "3.0"; "4.0"]; []; 
               ["0"; "5.0"; "6.0"]; ["1"; "7.0"; "8.0"]]%string in
  let rows' := [["one"; "1.0"; "2.0"]; ["two"; "3.0"; "4.0"]; []; 
                ["7"; "5.0"; "6.0"]; ["7"; "7.0"; "8.0"]]%string in
  let self : MatchupTable Z := new_instance in
  Forall2 same_cells rows rows' ∧
  (wins_table (load_from_csv (Some (index ++ [] :: rows')) self).2)
    = Some (Nd2 2 [[1; 2]; [3; 4]]%Z) ∧
  load_from_csv (Some (index ++ [] :: rows)) self
  = load_from_csv (Some (index ++ [] :: rows')) self.
Proof.
  intros index rows rows' self.
  assert (Forall2 same_cells rows rows') as Hrows.
  { repeat constructor; try done; by intros [=]. }
  split; [exact Hrows|]. split; [vm_compute; reflexivity|].
  apply (load_from_csv_ignores_row_labels index rows rows' self Hrows).
Defined.

(** X9: [save_to_csv] never changes the instance, and the file it writes
    when it returns holds exactly three empty records, whatever the names
    and the cells are: one record per index entry and per table row, and
    the three dividers [load_from_csv] counts. *)
Theorem save_to_csv_three_dividers {F : Type} `{FloatText F}
    (self self' : MatchupTable F) (file : list (list string)) :
  save_to_csv self = (Ok file, self') →
  self' = self ∧ dividers file = 3 ∧
  ∃ wins total winrates,
    wins_table self = Some wins ∧ total_games_table self = Some total ∧
    winrates_table self = Some winrates ∧
    length file = length (card_name_to_index self) + length (nd_rows wins)
                  + length (nd_rows total) + length (nd_rows winrates) + 3.
Proof.
  unfold save_to_csv. mrun. case_bool_decide; [done|].
  destruct (wins_table self) as [w|]; [|done].
  destruct (total_games_table self) as [t|]; [|done].
  destruct (winrates_table self) as [r|]; [|done]. cbn.
  intros [= <- <-]. split; [done|]. split.
  - fold (index_records (card_name_to_index self)).
    rewrite dividers_app, index_records_dividers, dividers_cons_nil.
    rewrite dividers_app, table_records_dividers, dividers_cons_nil.
    rewrite dividers_app, table_records_dividers, dividers_cons_nil.
    by rewrite table_records_dividers.
  - exists w, t, r. repeat split.
    unfold table_records.
    rewrite !length_app, !length_cons, !length_app, !length_cons, !length_app,
      !length_cons, length_fmap, !length_imap. lia.
Qed.

(** X9, an instance: a one-card instance whose only name is the empty
    string. *)
Lemma save_to_csv_three_dividers_witness :
  let self : MatchupTable Z :=
    {| wins_table := Some (Nd2 1 [[3%Z]]); total_games_table := Some (Nd2 1 [[5%Z]]);
       winrates_table := Some (Nd2 1 [[0%Z]]);
       card_name_to_index := [(EmptyString, 0%Z)];
       index_to_card_name := [(0%Z, EmptyString)]; gamesProcessed := 1 |} in
  ∃ file,
    save_to_csv self = (Ok file, self) ∧
    self = self ∧ dividers file = 3 ∧
    ∃ wins total winrates,
      wins_table self = Some wins ∧ total_games_table self = Some total ∧
      winrates_table self = Some winrates ∧
      length file = length (card_name_to_index self) + length (nd_rows wins)
                    + length (nd_rows total) + length (nd_rows winrates) + 3.
Proof.
  intros self. eexists. split; [vm_compute; reflexivity|].
  apply (save_to_csv_three_dividers self self). vm_compute. reflexivity.
Defined.

(** ** process_player_recent_ranked_games *)

Section battlelog_facts.
Context {F : Type} `{FloatArith F}.
Implicit Types (self s : MatchupTable F) (game : Battlelog.Battle).

(** One turn of the loop over the battle log. *)
Lemma process_player_cons game rest s :
  process_player_recent_ranked_games 200 (game :: rest) s =
  if decide (ranked game) then
    match game_info (card_name_to_index s) game with
    | Some g => (process_game g ;; process_player_recent_ranked_games 200 rest) s
    | None => (Raise IndexError, s)
    end
  else process_player_recent_ranked_games 200 rest s.
Proof.
  unfold process_player_recent_ranked_games.
  destruct (decide (200%Z ≠ 200%Z)) as [?|_]; [done|].
  cbn [for_each]. unfold ranked, game_info, side_deck.
  destruct (decide (Battlelog.type game = "pathOfLegend"%string)) as [Hr|Hr].
  - destruct (Battlelog.team game !! 0) as [team|]; [|done].
    destruct (Battlelog.opponent game !! 0) as [opponent|]; [|done].
    destruct (Battlelog.supportCards team !! 0) as [st|] eqn:Hst;
      [|by mrun; rewrite Hst].
    destruct (Battlelog.supportCards opponent !! 0) as [so|] eqn:Hso;
      [|by mrun; rewrite Hst; mrun; rewrite Hso].
    mrun. rewrite Hst. mrun. rewrite Hso. reflexivity.
  - reflexivity.
Qed.

Lemma process_player_nil s :
  process_player_recent_ranked_games 200 [] s = (Ok tt, s).
Proof. reflexivity. Qed.

(** A player's games keep [n] by [n] tables [n] by [n], whatever the
    answer to the request and however the loop ends. *)
Lemma process_player_tables_square n status_code log s :
  tables_square n s →
  tables_square n (process_player_recent_ranked_games status_code log s).2.
Proof.
  destruct (decide (status_code = 200%Z)) as [->|Hne].
  2:{ unfold process_player_recent_ranked_games. by rewrite decide_True. }
  revert s. induction log as [|game rest IH]; intros s Hsq; [done|].
  rewrite process_player_cons. destruct (decide _); [|by apply IH].
  destruct (game_info _ game) as [g|]; [|done].
  unfold mbind, M_bind.
  destruct (process_game_outcome n s g Hsq) as [(s' & -> & Hsq')|(e & -> & _)];
    [by apply IH|done].
Qed.

(** Names the mapping does not know are dropped by [_indices_for_deck]
    itself. *)
Lemma omap_filter_known (d : list (string * Z)) (names : list string) :
  omap (dict_get d) (filter (λ name, is_Some (dict_get d name)) names)
  = omap (dict_get d) names.
Proof.
  induction names as [|name names IH]; [done|].
  destruct (dict_get d name) as [i|] eqn:Hget.
  - rewrite filter_cons_True by (by rewrite Hget). cbn. by rewrite Hget, IH.
  - rewrite filter_cons_False by (rewrite Hget; by intros []). cbn.
    by rewrite Hget, IH.
Qed.

Lemma indices_for_deck_known self (deck : Deck) :
  _indices_for_deck (known_cards (card_name_to_index self) deck) self
  = _indices_for_deck deck self.
Proof.
  unfold _indices_for_deck. mrun.
  rewrite !omap_app, omap_filter_known. reflexivity.
Qed.
End battlelog_facts.

(** X10: the battle records that are not of the ranked type do not matter
    to [process_player_recent_ranked_games]: the log without them gives the
    same outcome, on any instance. *)
Theorem process_player_skips_unranked {F : Type} `{FloatArith F}
    (games_list : list Battlelog.Battle) (self : MatchupTable F) :
  process_player_recent_ranked_games 200 games_list self
  = process_player_recent_ranked_games 200 (filter ranked games_list) self.
Proof.
  revert self. induction games_list as [|game rest IH]; intros self; [done|].
  rewrite process_player_cons. destruct (decide (ranked game)) as [Hr|Hr].
  - rewrite filter_cons_True by done. rewrite process_player_cons.
    rewrite decide_True by done.
    destruct (game_info _ game) as [g|]; [|done].
    apply bind_ext. intros [] s'. apply IH.
  - rewrite filter_cons_False by done. apply IH.
Qed.





(** X13: the test [name in self.card_name_to_index] that
    [process_player_recent_ranked_games] applies to the card names of a
    deck changes nothing: [process_game] on the game with the unknown names
    left in has the same outcome, on any instance. *)
Theorem process_game_known_names {F : Type} `{FloatArith F}
    (g : GameInfo) (self : MatchupTable F) :
  process_game (known_game (card_name_to_index self) g) self = process_game g self.
Proof.
  rewrite !process_game_eq. cbn [known_game winner team_deck opponent_deck].
  rewrite indices_for_deck_known.
  pose proof (indices_for_deck_state self (team_deck g)) as Hs.
  destruct (_indices_for_deck (team_deck g) self) as [[team_idx|e] s1];
    cbn in Hs; subst s1; [|done].
  by rewrite indices_for_deck_known.
Qed.

(** ** count_top_n_ranked_player_games and main *)

Section driver_facts.
Context {F : Type} `{FloatArith F} `{FloatText F}.
Implicit Types (self s : MatchupTable F).

(** The loop over the players: the plain loop, with an exception replaced
    by saving the table and returning. *)
Lemma count_players_outcome battlelog (tags : list string) s :
  count_players battlelog tags s =
  match for_each tags (λ tag,
          process_player_recent_ranked_games (battlelog tag).1 (battlelog tag).2) s
  with
  | (Ok _, s') => (Ok None, s')
  | (Raise _, s') => (file ← save_to_csv; mret (Some file)) s'
  end.
Proof.
  revert s. induction tags as [|tag tags IH]; intros s; [done|].
  cbn [count_players for_each]. unfold mbind at 1 4, M_bind at 1 4, try_except.
  unfold mbind at 1, M_bind at 1.
  destruct (process_player_recent_ranked_games _ _ s) as [[[]|e] s1]; cbn.
  - apply IH.
  - reflexivity.
Qed.

Lemma for_each_player_tables_square n battlelog (tags : list string) s :
  tables_square n s →
  tables_square n
    (for_each tags (λ tag,
       process_player_recent_ranked_games (battlelog tag).1 (battlelog tag).2) s).2.
Proof.
  revert s. induction tags as [|tag tags IH]; intros s Hsq; [done|].
  cbn [for_each]. unfold mbind, M_bind.
  pose proof (process_player_tables_square n (battlelog tag).1 (battlelog tag).2 s Hsq)
    as Hsq1.
  destruct (process_player_recent_ranked_games _ _ s) as [[[]|e] s1]; cbn in Hsq1.
  - by apply IH.
  - done.
Qed.

Lemma save_to_csv_returns n s :
  tables_square n s → ∃ file, save_to_csv s = (Ok file, s).
Proof.
  intros ((w & Hw & _) & (t & Ht & _) & (r & Hr & _)).
  unfold save_to_csv. mrun. rewrite bool_decide_false by (rewrite Hw, Ht; by intros [|]).
  rewrite Hw, Ht, Hr. by eexists.
Qed.

(** [__init__] over any catalog builds three square tables. *)
Lemma init_tables_square (items supportItems : list string) :
  ∃ self, __init__ 200 items supportItems = (Ok tt, self) ∧
          tables_square (length (items ++ supportItems)) self.
Proof.
  unfold __init__, __init_tables. rewrite decide_False by (by intros []).
  unfold mbind at 1, M_bind at 1.
  edestruct (init_loop (F:=F) (length (items ++ supportItems))
               (imap (λ index card, (index, card)) (items ++ supportItems))
               new_instance) as (self1 & -> & _ & _).
  { apply Forall_lookup. intros i [index card]. rewrite list_lookup_imap.
    destruct ((items ++ supportItems) !! i) eqn:Hi; [|done].
    intros [= <- <-]. cbn. by apply lookup_lt_Some in Hi. }
  { constructor. }
  mrun. eexists. split; [done|].
  repeat split; (eexists; split; [reflexivity|]); apply square_np_zeros.
Qed.
End driver_facts.

(** X14: [count_top_n_ranked_player_games], once the ranking request is
    answered, is the plain loop over the players as long as no player
    raises; at the first player that raises (a failed request or a
    malformed record) the exception is swallowed, the table is saved as it
    is and the call returns, and no later player is looked at. *)
Theorem count_top_n_ranked_player_games_outcome {F : Type}
    `{FloatArith F} `{FloatText F}
    (tags : list string) (battlelog : string → Z * list Battlelog.Battle)
    (self : MatchupTable F) :
  count_top_n_ranked_player_games (200%Z, tags) battlelog self =
  match for_each tags (λ tag,
          process_player_recent_ranked_games (battlelog tag).1 (battlelog tag).2)
          self
  with
  | (Ok _, self') => (Ok None, self')
  | (Raise _, self') => (file ← save_to_csv; mret (Some file)) self'
  end.
Proof.
  unfold count_top_n_ranked_player_games, get_top_n_ranked_player_tags_by_season.
  cbn [fst snd]. rewrite decide_False by (by intros []).
  apply count_players_outcome.
Qed.

(** X15: once the catalog request and the ranking request are answered
    with status 200, [main] runs to its end whatever the catalog, the
    ranking and the battle logs hold (failed requests and malformed
    records included): the file it writes last is the saved final instance,
    whose winrates table holds the derived value of every cell. *)
Theorem main_returns {F : Type} `{FloatArith F} `{FloatText F}
    (items supportItems tags : list string)
    (battlelog : string → Z * list Battlelog.Battle) :
  ∃ saved file self wins total winrates,
    main 200 items supportItems (200%Z, tags) battlelog = (Ok (saved, file), self) ∧
    save_to_csv self = (Ok file, self) ∧
    wins_table self = Some wins ∧ total_games_table self = Some total ∧
    winrates_table self = Some winrates ∧
    ∀ i j w t, cell wins i j = Some w → cell total i j = Some t →
               cell winrates i j = Some (winrate_function w t f_one).
Proof.
  set (n := length (items ++ supportItems)).
  destruct (init_tables_square items supportItems) as (s0 & Hinit & Hsq0).
  fold n in Hsq0. unfold main. unfold mbind at 1, M_bind at 1.
  unfold __init__ in Hinit. rewrite Hinit.
  unfold mbind at 1, M_bind at 1.
  unfold count_top_n_ranked_player_games, get_top_n_ranked_player_tags_by_season.
  cbn [fst snd]. rewrite decide_False by (by intros []).
  unfold mbind at 1, M_bind at 1, mret at 1, M_ret at 1.
  rewrite count_players_outcome.
  pose proof (for_each_player_tables_square n battlelog tags s0 Hsq0) as Hsq1.
  destruct (for_each tags _ s0) as [r1 s1]. cbn [snd] in Hsq1.
  assert (∃ saved, match r1 with
                   | Ok _ => (Ok None, s1)
                   | Raise _ => (file ← save_to_csv; mret (Some file)) s1
                   end = (Ok saved, s1)) as [saved ->].
  { destruct r1; [by eexists|]. unfold mbind, M_bind.
    destruct (save_to_csv_returns n s1 Hsq1) as [file ->]. by eexists. }
  destruct Hsq1 as ((w & Hw & Hsw) & (t & Ht & Hst) & (r & Hr & Hsr)).
  destruct (calculate_winrates_run s1 n n w t Hw Ht Hsw Hst r Hr Hsr)
    as (r' & Hrun & Hsr' & Hcells).
  unfold mbind at 1, M_bind at 1. rewrite Hrun.
  destruct (save_to_csv_returns n (set_winrates_table s1 (Some r'))) as [file Hfile].
  { split; [by exists w|]. split; [by exists t|by exists r']. }
  unfold mbind, M_bind. rewrite Hfile.
  exists saved, file, (set_winrates_table s1 (Some r')), w, t, r'.
  repeat split; done.
Qed.

(** ** The index __init_tables builds *)

Section dict_more_facts.
Context {K V : Type} `{EqDecision K}.
Implicit Types (d : list (K * V)) (k : K) (v : V).


Lemma dict_get_NoDup d k v : NoDup d.*1 → (k, v) ∈ d → dict_get d k = Some v.
Proof.
  induction d as [|[k0 v0] d IH]; intros Hnd Hin; [by apply elem_of_nil in Hin|].
  cbn in *. apply list.NoDup_cons in Hnd as [Hk0 Hnd].
  apply elem_of_cons in Hin as [[= -> ->]|Hin]; [by rewrite decide_True|].
  rewrite decide_False; [by apply IH|]. intros ->. apply Hk0.
  apply list_elem_of_fmap. by exists (k, v).
Qed.
End dict_more_facts.

Section index_facts.
Context {F : Type} `{FloatArith F}.
Implicit Types (self : MatchupTable F) (all_cards : list string).






End index_facts.




(** ** The labels of the plot *)

Section label_facts.
Context {F : Type} `{FloatText F}.
Implicit Types (self s : MatchupTable F) (acc : row_lists (F:=F)).

(** What [read_rows] returns, and the mappings it leaves, depend on the
    instance through the two mappings only. *)
Lemma read_rows_agree rows k acc s1 s2 :
  same_index s1 s2 →
  (read_rows rows k acc s1).1 = (read_rows rows k acc s2).1 ∧
  same_index (read_rows rows k acc s1).2 (read_rows rows k acc s2).2.
Proof.
  revert k acc s1 s2. induction rows as [|row rows IH]; intros k acc s1 s2 Hs;
    [done|].
  destruct row as [|c row]; [rewrite !read_rows_divider; by apply IH|].
  cbn [read_rows length Nat.eqb]. unfold float_cells.
  change (drop 1 (c :: row)) with row.
  destruct k as [|[|[|[|k]]]]; cbn [Nat.eqb]; mrun.
  - destruct row as [|field row]; cbn; [done|].
    destruct (py_int field) as [index|]; cbn; [|done].
    apply IH. destruct Hs as [Hn Hi]. split; cbn; congruence.
  - destruct (mapM py_float row); cbn; [by apply IH|done].
  - destruct (mapM py_float row); cbn; [by apply IH|done].
  - destruct (mapM py_float row); cbn; [by apply IH|done].
  - by apply IH.
Qed.

(** What [load_from_csv] returns, and the winrates table and the
    index-to-name mapping it leaves when it returns, do not depend on the
    instance. *)
Lemma load_from_csv_agree file s1 s2 :
  (load_from_csv file s1).1 = (load_from_csv file s2).1 ∧
  ((load_from_csv file s1).1 = Ok tt →
   winrates_table (load_from_csv file s1).2 = winrates_table (load_from_csv file s2).2 ∧
   index_to_card_name (load_from_csv file s1).2
     = index_to_card_name (load_from_csv file s2).2).
Proof.
  destruct file as [rows|]; [|done]. rewrite !load_from_csv_run.
  unfold mbind, M_bind.
  destruct (read_rows_agree rows 0
              {| wins_rows := []; total_games_rows := []; winrates_rows := [] |}
              (clear_index s1) (clear_index s2)) as (Hr & _ & Hi); [done|].
  destruct (read_rows rows 0 _ (clear_index s1)) as [[acc|e] s1'],
    (read_rows rows 0 _ (clear_index s2)) as [[acc'|e'] s2'];
    cbn in Hr, Hi; simplify_eq; [|done].
  unfold rebuild_tables.
  destruct (np_array (wins_rows acc')); mrun; [|done].
  destruct (np_array (total_games_rows acc')); mrun; [|done].
  destruct (np_array (winrates_rows acc')); mrun; [|done].
  split; [done|]. intros _. split; [done|]. cbn. congruence.
Qed.

Lemma load_labels_agree file s1 s2 :
  (load_labels file s1).1 = (load_labels file s2).1.
Proof.
  destruct (load_from_csv_agree file s1 s2) as (Hr & Hok).
  unfold load_labels. unfold mbind at 1 5, M_bind at 1 5.
  destruct (load_from_csv file s1) as [[[]|e] s1'],
    (load_from_csv file s2) as [[[]|e'] s2']; cbn in Hr, Hok; simplify_eq;
    [|done].
  destruct (Hok eq_refl) as [Hw Hi]. mrun. rewrite Hw, Hi. 
  destruct (winrates_table s2') as [a|]; [|done]. cbn.
  by destruct (shape a) as [|? [|? [|? ?]]].
Qed.

(** A file written from a bijective index and three tables with rows is
    read back as that index and those tables. *)
Lemma load_written_file (d : list (string * Z)) (w t r : ndarray F) other :
  NoDup d.*1 → NoDup d.*2 →
  nd_wf w → nd_wf t → nd_wf r → has_rows w → has_rows t → has_rows r →
  text_exact w → text_exact t → text_exact r →
  load_from_csv
    (Some (index_records d ++ [] :: table_records w ++ [] :: table_records t
           ++ [] :: table_records r)) other
  = (Ok tt,
     {| wins_table := Some w; total_games_table := Some t; winrates_table := Some r;
        card_name_to_index := d; index_to_card_name := prod_swap <$> d;
        gamesProcessed := gamesProcessed other |}).
Proof.
  intros Hk Hv Hwf1 Hwf2 Hwf3 Hrow1 Hrow2 Hrow3 Hx1 Hx2 Hx3.
  rewrite load_from_csv_run. unfold mbind, M_bind.
  pose proof (read_rows_sections (index_records d) d
    (table_records w) (nd_rows w) (table_records t) (nd_rows t)
    (table_records r) (nd_rows r) [] (clear_index other)
    (index_entry_written _)
    (table_records_nonempty _) (table_records_nonempty _)
    (table_records_nonempty _)
    (table_records_cells _ Hx1) (table_records_cells _ Hx2)
    (table_records_cells _ Hx3) (or_introl eq_refl)) as Hread.
  rewrite app_nil_r in Hread. cbn [app]. rewrite Hread. clear Hread.
  destruct (foldl_add_entry_index d [] (clear_index other)) as [Hn Hi]; [done..|].
  destruct (foldl_add_entry_tables d (clear_index other)) as (_ & _ & _ & Hg).
  unfold rebuild_tables. mrun.
  rewrite !np_array_nd_rows by done. cbn.
  f_equal. unfold set_wins_table, set_total_games_table, set_winrates_table. cbn.
  rewrite Hn, Hi, Hg. reflexivity.
Qed.

(** Over a mapping that sends every position to a name, the labels are the
    names. *)
Lemma make_labels_names (names : list string) :
  make_labels (length names) (imap (λ i name, (Z.of_nat i, name)) names) = names.
Proof.
  unfold make_labels. apply list_eq. intros i. rewrite list_lookup_fmap.
  destruct (names !! i) as [name|] eqn:Hi.
  - rewrite lookup_seq_lt by (by eapply lookup_lt_Some). cbn.
    rewrite (dict_get_NoDup _ _ name); [done| |].
    + rewrite fmap_imap, (imap_ext _ (λ i _, Z.of_nat i)) by done.
      rewrite imap_seq_0. apply NoDup_fmap; [apply Nat2Z.inj'|apply NoDup_seq].
    + apply list_elem_of_lookup. exists i. by rewrite list_lookup_imap, Hi.
  - by rewrite lookup_seq_ge by (by apply lookup_ge_None).
Qed.
End label_facts.

(** X18: the labels [main] of PlotMatchupTable.py hands to the figure, or
    the exception it raises before, come from the file alone: the catalog
    the constructor requests first, like any earlier content of the
    instance, does not reach them. *)
Theorem plot_main_labels_from_file {F : Type} `{FloatArith F} `{FloatText F}
    (items supportItems : list string) (file : option (list (list string)))
    (self : MatchupTable F) :
  (plot_main 200 items supportItems file).1 = (load_labels file self).1.
Proof.
  unfold plot_main. unfold mbind at 1, M_bind at 1.
  destruct (init_tables_square (F:=F) items supportItems) as (s0 & Hs0 & _).
  unfold __init__ in Hs0. rewrite Hs0. apply load_labels_agree.
Qed.

(** X19: from a file saved by an instance over at least one card, whose
    index lists distinct names with their positions and whose tables are
    square over those names with cells that are read back as written, the
    row labels and the column labels of the plot are the names in index
    order, whatever instance loads the file. *)
Theorem load_labels_of_saved_file {F : Type} `{FloatText F}
    (names : list string) (self other : MatchupTable F)
    (wins total winrates : ndarray F) (file : list (list string)) :
  names ≠ [] → NoDup names →
  card_name_to_index self = imap (λ i name, (name, Z.of_nat i)) names →
  wins_table self = Some wins → total_games_table self = Some total →
  winrates_table self = Some winrates →
  square (length names) wins → square (length names) total →
  square (length names) winrates →
  text_exact wins → text_exact total → text_exact winrates →
  save_to_csv self = (Ok file, self) →
  (load_labels (Some file) other).1 = Ok (names, names).
Proof.
  intros Hne Hnd Hidx Hw Ht Hr Hsw Hst Hsr Hx1 Hx2 Hx3 Hsave.
  assert (∀ a : ndarray F, square (length names) a → nd_wf a ∧ has_rows a ∧
            shape a = [length names; length names]) as Hshape.
  { intros a (rows & -> & Hlen & Hrows). cbn. rewrite Hlen.
    repeat split; [done|]. intros ->. by destruct names. }
  destruct (Hshape _ Hsw) as (? & ? & _), (Hshape _ Hst) as (? & ? & _),
    (Hshape _ Hsr) as (? & ? & Hdims).
  revert Hsave. unfold save_to_csv. mrun. rewrite Hw, Ht, Hr.
  rewrite bool_decide_false by (by intros [?|?]). cbn. intros [= <-].
  unfold load_labels. unfold mbind at 1, M_bind at 1.
  fold (index_records (card_name_to_index self)).
  rewrite (load_written_file (card_name_to_index self) wins total winrates other);
    try done.
  - mrun. rewrite Hdims. cbn. rewrite Hidx, fmap_imap.
    rewrite (imap_ext _ (λ i name, (Z.of_nat i, name))) by done.
    pose proof (make_labels_names names) as Hl. unfold make_labels in Hl.
    by rewrite Hl.
  - rewrite Hidx, fmap_imap, (imap_ext _ (const id)) by done.
    by rewrite imap_const, list_fmap_id.
  - rewrite Hidx, fmap_imap, (imap_ext _ (λ i _, Z.of_nat i)) by done.
    rewrite imap_seq_0. apply NoDup_fmap; [apply Nat2Z.inj'|apply NoDup_seq].
Qed.

(** X19, an instance: two cards and their tables after one game, loaded
    into a fresh instance. *)
Lemma load_labels_of_saved_file_witness :
  let names := ["knight"; "archer"]%string in
  let wins : ndarray Z := Nd2 2 [[0; 1]; [0; 0]]%Z in
  let total : ndarray Z := Nd2 2 [[0; 1]; [1; 0]]%Z in
  let winrates : ndarray Z := Nd2 2 [[0; 0]; [0; 0]]%Z in
  let self : MatchupTable Z :=
    {| wins_table := Some wins; total_games_table := Some total;
       winrates_table := Some winrates;
       card_name_to_index := [("knight"%string, 0%Z); ("archer"%string, 1%Z)];
       index_to_card_name := [(0%Z, "knight"%string); (1%Z, "archer"%string)];
       gamesProcessed := 1 |} in
  ∃ file,
    save_to_csv self = (Ok file, self) ∧
    (load_labels (Some file) new_instance).1 = Ok (names, names).
Proof.
  intros names wins total winrates self. eexists. split; [vm_compute; reflexivity|].
  apply (load_labels_of_saved_file names self new_instance wins total winrates).
  1: discriminate.
  1: apply (bool_decide_unpack _); by vm_compute.
  1-4: reflexivity.
  1-3: (eexists; split; [reflexivity|]; split; [reflexivity|]); repeat constructor.
  1-3: repeat constructor; apply whole_text_roundtrip.
  vm_compute. reflexivity.
Defined.

(** ** Wins and total games, in exact arithmetic *)

Section conservation_facts.
Local Open Scope Q_scope.

End conservation_facts.



Section complement_facts.
Local Open Scope Q_scope.

End complement_facts.


